(** * Heading-inference pipeline of [extractor.py]

    A shallow embedding of the pure core of the PDF outline extractor
    (font ranking, heading labelling, title inference, heading filter,
    outline assembly) and of the control flow of [process_pdf].

    Modelling conventions
    - A Python [float] that is a finite number is an exact rational ([Qc],
      the canonical rationals, so that [==] on floats is Leibniz equality).
      NaN and the infinities are outside the model.
    - [round(x, 2)] rounds to the nearest hundredth, ties to even.
    - A Python [str] is a [string]; [len] is [String.length]; [str.strip]
      removes the characters for which [str.isspace] holds at both ends.
    - A Python [int] is a [Z].
    - The dict [level_map] is a [gmap Qc string]; a [Counter], whose key
      order is observable through [.keys()], is an insertion-ordered
      association list.
    - Exceptions are the [Raise] results of a small error monad. *)

From Stdlib Require Import QArith Qcanon Qround.
From Stdlib Require Import Ascii String.
From stdpp Require Import base option list sorting strings gmap fin_maps.

Set Warnings "-clear-no-such-hyp".
Local Open Scope Qc_scope.

(** ** Exceptions *)

Inductive exn : Type :=
  | ValueError
  | IndexError
  | KeyError (k : string)
  | TypeError
  | AttributeError
  | RuntimeError
  | OSError.

Inductive result (A : Type) : Type :=
  | Ok (a : A)
  | Raise (e : exn).
Arguments Ok {A} a.
Arguments Raise {A} e.

(** The error monad, with stdpp's [x ← m; k] notation. *)
Global Instance result_ret : MRet result := λ A a, Ok a.
Global Instance result_bind : MBind result := λ A B k r,
  match r with
  | Ok a => k a
  | Raise e => Raise e
  end.

(** ** Numbers *)

Definition Qc_ltb (x y : Qc) : bool := bool_decide (x < y).
Definition Qc_eqb (x y : Qc) : bool := bool_decide (x = y).

(** Nearest integer, ties to the even neighbour. *)
Definition round_half_even (x : Q) : Z :=
  let f := Qfloor x in
  match Qcompare (x - inject_Z f) (1 # 2) with
  | Lt => f
  | Gt => (f + 1)%Z
  | Eq => if Z.even f then f else (f + 1)%Z
  end.

(** [round(x, 2)] *)
Definition round2 (x : Qc) : Qc :=
  Q2Qc (inject_Z (round_half_even (x * (100 # 1))%Q) / (100 # 1))%Q.

Definition Qc_abs (x : Qc) : Qc := if Qc_ltb x 0 then - x else x.

(** ** Strings *)

(** [str.isspace] on the code points below 256: TAB, LF, VT, FF, CR,
    FS, GS, RS, US, SPACE, NEL and NBSP. *)
Definition is_space (c : ascii) : bool :=
  let n := nat_of_ascii c in
  ((9 <=? n)%nat && (n <=? 13)%nat)
  || ((28 <=? n)%nat && (n <=? 32)%nat)
  || (n =? 133)%nat || (n =? 160)%nat.

Fixpoint lstrip (s : string) : string :=
  match s with
  | EmptyString => EmptyString
  | String c s' => if is_space c then lstrip s' else s
  end.

Fixpoint rstrip (s : string) : string :=
  match s with
  | EmptyString => EmptyString
  | String c s' =>
      match rstrip s' with
      | EmptyString => if is_space c then EmptyString else String c EmptyString
      | r => String c r
      end
  end.

(** [s.strip()] *)
Definition strip (s : string) : string := rstrip (lstrip s).

(** ** Data model *)

(** The dict produced per line or block by the extractor. *)
Record Fragment : Type := {
  text : string;
  font_size : Qc;
  font_name : string;
  x0 : Qc;
  y0 : Qc;
  page : Z
}.

(** A fragment with its [level] key, as built by [assign_heading_levels]. *)
Record LabeledFragment : Type := {
  frag : Fragment;
  level : string
}.

(** The three-key dict emitted by [filter_headings]. *)
Record Heading : Type := {
  h_level : string;
  h_text : string;
  h_page : Z
}.

Record Outline : Type := {
  title : string;
  outline : list Heading
}.

Global Instance Fragment_eq_dec : EqDecision Fragment.
Proof. solve_decision. Defined.
Global Instance LabeledFragment_eq_dec : EqDecision LabeledFragment.
Proof. solve_decision. Defined.
Global Instance Heading_eq_dec : EqDecision Heading.
Proof. solve_decision. Defined.
Global Instance Outline_eq_dec : EqDecision Outline.
Proof. solve_decision. Defined.

(** ** Python built-ins used by the pipeline *)

(** [collections.Counter]: keys in order of first insertion. *)
Section counter.
Context {K : Type} `{EqDecision K}.

Fixpoint counter_incr (k : K) (c : list (K * nat)) : list (K * nat) :=
  match c with
  | [] => [(k, 1%nat)]
  | (k', n) :: c' =>
      if decide (k = k') then (k', S n) :: c' else (k', n) :: counter_incr k c'
  end.

(** [Counter(iterable)] *)
Definition Counter (l : list K) : list (K * nat) :=
  foldl (λ c k, counter_incr k c) [] l.

(** [counter.keys()] *)
Definition counter_keys (c : list (K * nat)) : list K := c.*1.

(** [counter[k]]: a missing key counts 0. *)
Fixpoint counter_get (c : list (K * nat)) (k : K) : nat :=
  match c with
  | [] => 0%nat
  | (k', n) :: c' => if decide (k = k') then n else counter_get c' k
  end.

(** Number of occurrences of [k] in [l]. *)
Definition occurrences (k : K) (l : list K) : nat :=
  length (filter (λ x, x = k) l).

End counter.

(** [sorted(l, key=key)] for keys compared with [lt]: a stable sort, equal
    keys keep their input order.  [reverse=True] is the same sort with the
    comparison flipped. *)
Section sorted.
Context {A K : Type} (key : A → K) (lt : K → K → bool).

Fixpoint insort (x : A) (l : list A) : list A :=
  match l with
  | [] => [x]
  | y :: l' => if lt (key y) (key x) then y :: insort x l' else x :: y :: l'
  end.

Definition sorted (l : list A) : list A := foldr insort [] l.

(** [x] may stand before [y]: the key of [y] is not below the key of [x]. *)
Definition key_le (x y : A) : Prop := lt (key y) (key x) = false.

End sorted.

(** [enumerate(l)] *)
Definition enumerate {A} (l : list A) : list (nat * A) := imap (λ i x, (i, x)) l.

(** [max(iterable)] on floats; the empty iterable raises [ValueError]. *)
Definition py_max (l : list Qc) : result Qc :=
  match l with
  | [] => Raise ValueError
  | x :: l' => Ok (foldl (λ m y, if Qc_ltb m y then y else m) x l')
  end.

(** ** rank_font_sizes *)

Definition heading_levels : list string := ["H1"; "H2"; "H3"].

Definition rank_font_sizes (lines : list Fragment) : gmap Qc string :=
  let font_sizes := (λ line, round2 (font_size line)) <$> lines in
  let font_counter := Counter font_sizes in
  let sorted_sizes := sorted id (flip Qc_ltb) (counter_keys font_counter) in
  foldl (λ level_map '(i, size), <[size := heading_levels !!! i]> level_map)
        ∅ (enumerate (take 3 sorted_sizes)).

(** ** assign_heading_levels *)

Definition assign_heading_levels (lines : list Fragment)
    (font_level_map : gmap Qc string) : list LabeledFragment :=
  foldl (λ labeled_lines line,
           let size_key := round2 (font_size line) in
           match font_level_map !! size_key with
           | Some lv =>
               labeled_lines ++
               [ {| frag := {| text := text line;
                               font_size := size_key;
                               font_name := font_name line;
                               x0 := x0 line;
                               y0 := y0 line;
                               page := page line |};
                    level := lv |} ]
           | None => labeled_lines
           end)
        [] lines.

(** ** infer_title_from_lines *)

(** A4 portrait width in points, the default of [page_width]. *)
Definition default_page_width : Qc := Q2Qc (5952 # 10).

(** The value of the keyword argument [page_width]: [None] when the call
    leaves it out. *)
Definition page_width_arg (page_width : option Qc) : Qc :=
  default default_page_width page_width.

(** [<] on pairs of floats, as Python compares tuples. *)
Definition pair_ltb (a b : Qc * Qc) : bool :=
  Qc_ltb a.1 b.1 || (Qc_eqb a.1 b.1 && Qc_ltb a.2 b.2).

(** The sort key of a title candidate: height on the page, then distance
    of the (shifted) left edge from the page centre. *)
Definition title_key (page_width : Qc) (l : Fragment) : Qc * Qc :=
  (y0 l, Qc_abs ((x0 l + Q2Qc 10) - page_width / Q2Qc 2)).

Definition infer_title_from_lines (lines : list Fragment) (page_width : option Qc)
    : result string :=
  let page_width := page_width_arg page_width in
  let first_page_lines := filter (λ line, page line = 1%Z) lines in
  let first_page_lines :=
    if bool_decide (first_page_lines = []) then take 10 lines
    else first_page_lines in
  max_size ← py_max (font_size <$> first_page_lines);
  let candidates :=
    filter (λ line, round2 (font_size line) = round2 max_size
                    ∧ (String.length (text line) ≤ 100)%nat)
           first_page_lines in
  let candidates := sorted (title_key page_width) pair_ltb candidates in
  match candidates with
  | c :: _ => Ok (strip (text c))
  | [] =>
      match sorted y0 Qc_ltb first_page_lines with
      | top_line :: _ => Ok (strip (text top_line))
      | [] => Raise IndexError
      end
  end.

(** ** filter_headings *)

(** The loop of [filter_headings], for a given [text_counter]. *)
Definition filter_headings_loop (text_counter : list (string * nat))
    (labeled_lines : list LabeledFragment) : list Heading :=
  foldl (λ filtered line,
           let text := strip (text (frag line)) in
           if (120 <? String.length text)%nat then filtered
           else if (2 <? counter_get text_counter text)%nat then filtered
           else if Qc_ltb (Q2Qc 750) (y0 (frag line)) then filtered
           else filtered ++ [ {| h_level := level line;
                                 h_text := text;
                                 h_page := page (frag line) |} ])
        [] labeled_lines.

Definition filter_headings (labeled_lines : list LabeledFragment) : list Heading :=
  let text_counter := Counter ((λ line, text (frag line)) <$> labeled_lines) in
  filter_headings_loop text_counter labeled_lines.

(** ** build_outline_json *)

Definition build_outline_json (title : string) (headings : list Heading) : Outline :=
  {| title := title;
     outline := (λ heading, {| h_level := h_level heading;
                               h_text := h_text heading;
                               h_page := h_page heading |}) <$> headings |}.

(** ** filter_headings on untyped dicts

    [filter_headings] reads its input through string keys.  This version
    keeps the dicts as finite maps from keys to Python values, so that a
    missing key ([KeyError]) and a value of the wrong type are visible.
    Python equates the keys [1] and [1.0] of a [Counter]; the only keys
    looked up here are strings, for which [==] is equality of [value]s. *)

Module Dyn.

Inductive value : Type :=
  | VStr (s : string)
  | VFloat (q : Qc)
  | VInt (z : Z).

Global Instance value_eq_dec : EqDecision value.
Proof. solve_decision. Defined.

(** [d[k]] *)
Definition getitem (d : gmap string value) (k : string) : result value :=
  match d !! k with
  | Some v => Ok v
  | None => Raise (KeyError k)
  end.

(** [v.strip()] *)
Definition str_strip (v : value) : result string :=
  match v with
  | VStr s => Ok (strip s)
  | _ => Raise AttributeError
  end.

(** [v > 750] *)
Definition gt_750 (v : value) : result bool :=
  match v with
  | VFloat q => Ok (Qc_ltb (Q2Qc 750) q)
  | VInt z => Ok (750 <? z)%Z
  | VStr _ => Raise TypeError
  end.

Definition filter_headings (labeled_lines : list (gmap string value))
    : result (list (gmap string value)) :=
  texts ← mapM (λ line, getitem line "text") labeled_lines;
  let text_counter := Counter texts in
  foldl (λ acc line,
           filtered ← acc;
           raw ← getitem line "text";
           text ← str_strip raw;
           if (120 <? String.length text)%nat then Ok filtered
           else if (2 <? counter_get text_counter (VStr text))%nat then Ok filtered
           else
             y ← getitem line "y0";
             low ← gt_750 y;
             if low : bool then Ok filtered
             else
               lv ← getitem line "level";
               pg ← getitem line "page";
               Ok (filtered ++ [ {[ "level" := lv; "text" := VStr text; "page" := pg ]} ]))
        (Ok []) labeled_lines.

(** The three-key copy that [build_outline_json] makes of a heading. *)
Definition heading_entry (heading : gmap string value) : result (gmap string value) :=
  lv ← getitem heading "level";
  tx ← getitem heading "text";
  pg ← getitem heading "page";
  Ok {[ "level" := lv; "text" := tx; "page" := pg ]}.

(** The result stands for the dict with the keys ["title"] and ["outline"]. *)
Definition build_outline_json (title : string) (headings : list (gmap string value))
    : result (string * list (gmap string value)) :=
  outline ← mapM heading_entry headings;
  Ok (title, outline).

(** The dict of a labelled fragment and the dict of a heading. *)
Definition of_labeled (line : LabeledFragment) : gmap string value :=
  {[ "text" := VStr (text (frag line));
     "font_size" := VFloat (font_size (frag line));
     "font_name" := VStr (font_name (frag line));
     "x0" := VFloat (x0 (frag line));
     "y0" := VFloat (y0 (frag line));
     "page" := VInt (page (frag line));
     "level" := VStr (level line) ]}.

Definition of_heading (h : Heading) : gmap string value :=
  {[ "level" := VStr (h_level h);
     "text" := VStr (h_text h);
     "page" := VInt (h_page h) ]}.

End Dyn.

(** * The document and [process_pdf] *)

(** ** What PyMuPDF delivers

    [page.get_text("dict")] gives, per page, a list of blocks; a text
    block has a list of lines, each a list of spans; an image block has no
    ["lines"] key. *)

Record Span : Type := {
  span_text : string;
  span_size : Qc;
  span_font : string;
  span_origin : Qc * Qc
}.

Record Block : Type := {
  block_lines : option (list (list Span))
}.

Record Document : Type := {
  metadata : gmap string string;
  pages : list (list Block)
}.

(** [sum(l)] on floats *)
Definition py_sum (l : list Qc) : Qc := foldl Qcplus (Q2Qc 0) l.

(** The body of the loop over blocks in [extract_blocks]: the fragment of
    one block, or nothing when one of the [continue]s fires. *)
Definition block_fragment (page_num : Z) (block : Block) : option Fragment :=
  lines ← block_lines block;
  let spans := filter (λ span, strip (span_text span) ≠ EmptyString) (concat lines) in
  let block_text := (λ span, strip (span_text span)) <$> spans in
  let font_sizes := span_size <$> spans in
  first_span ← head spans;
  let text := strip (String.concat " " block_text) in
  let avg_font_size := py_sum font_sizes / Q2Qc (inject_Z (Z.of_nat (length font_sizes))) in
  Some {| text := text;
          font_size := round2 avg_font_size;
          font_name := span_font first_span;
          x0 := (span_origin first_span).1;
          y0 := (span_origin first_span).2;
          page := page_num |}.

Definition extract_blocks (doc : Document) : list Fragment :=
  mjoin (imap (λ i blocks, omap (block_fragment (Z.of_nat (S i))) blocks) (pages doc)).

(** ** get_title_from_metadata *)

Definition get_title_from_metadata (doc : Document) : option string :=
  let title := strip (default EmptyString (metadata doc !! "title")) in
  if decide (title = EmptyString) then None else Some title.

(** ** The world of [process_pdf]: written files and printed messages *)

Inductive Msg : Type :=
  | MsgStarting (file_name : string)
  | MsgLoaded
  | MsgExtracted (n : nat)
  | MsgNoBlocks
  | MsgFontMap (m : gmap Qc string)
  | MsgCouldNotRank
  | MsgAssigned (n : nat)
  | MsgNoHeadings
  | MsgTitleFromMetadata (t : string)
  | MsgTitleInferred (t : string)
  | MsgRetained (n : nat)
  | MsgAllFilteredOut
  | MsgSaved (output_path : string)
  | MsgError (file_name : string) (e : exn).

Record World : Type := {
  files : gmap string Outline;
  stdout : list Msg
}.

(** The collaborators: PyMuPDF's [open], [os.path] and the file system. *)
Record Env : Type := {
  fitz_open : string → result Document;
  basename : string → string;
  dirname : string → string;
  splitext_root : string → string;
  path_join : string → string → string;
  makedirs_ok : string → bool;
  open_ok : string → bool
}.

(** State and exceptions. *)
Definition M (A : Type) : Type := World → World * result A.

Global Instance M_ret : MRet M := λ A a w, (w, Ok a).
Global Instance M_bind : MBind M := λ A B k m w,
  match m w with
  | (w', Ok a) => k a w'
  | (w', Raise e) => (w', Raise e)
  end.

Definition lift {A} (r : result A) : M A := λ w, (w, r).

Definition print (msg : Msg) : M unit :=
  λ w, ({| files := files w; stdout := stdout w ++ [msg] |}, Ok ()).

(** [try: body except Exception as e: handler] *)
Definition try_except {A} (body : M A) (handler : exn → M A) : M A :=
  λ w, match body w with
       | (w', Raise e) => handler e w'
       | r => r
       end.

Definition load_pdf (env : Env) (file_path : string) : M Document :=
  try_except (lift (fitz_open env file_path)) (λ _, lift (Raise RuntimeError)).

Definition makedirs (env : Env) (path : string) : M unit :=
  if makedirs_ok env path then mret () else lift (Raise OSError).

(** [with open(path, "w") as f: json.dump(data, f)] *)
Definition dump_file (env : Env) (data : Outline) (output_path : string) : M unit :=
  if open_ok env output_path
  then λ w, ({| files := <[output_path := data]> (files w); stdout := stdout w |}, Ok ())
  else lift (Raise OSError).

Definition write_output_json (env : Env) (data : Outline) (output_path : string) : M unit :=
  _ ← makedirs env (dirname env output_path);
  dump_file env data output_path.

(** The title stage of [process_pdf]: metadata first, inference second. *)
Definition resolve_title (doc : Document) (blocks : list Fragment) : M string :=
  match get_title_from_metadata doc with
  | Some title =>
      if decide (title = EmptyString)
      then title ← lift (infer_title_from_lines blocks None);
           _ ← print (MsgTitleInferred title);
           mret title
      else _ ← print (MsgTitleFromMetadata title);
           mret title
  | None =>
      title ← lift (infer_title_from_lines blocks None);
      _ ← print (MsgTitleInferred title);
      mret title
  end.

Definition process_pdf (env : Env) (file_path output_dir : string) : M unit :=
  let file_name := basename env file_path in
  _ ← print (MsgStarting file_name);
  try_except
    (doc ← load_pdf env file_path;
     _ ← print MsgLoaded;
     let blocks := extract_blocks doc in
     _ ← print (MsgExtracted (length blocks));
     if decide (blocks = []) then print MsgNoBlocks
     else
       let font_level_map := rank_font_sizes blocks in
       _ ← print (MsgFontMap font_level_map);
       if decide (font_level_map = ∅) then print MsgCouldNotRank
       else
         let labeled_blocks := assign_heading_levels blocks font_level_map in
         _ ← print (MsgAssigned (length labeled_blocks));
         if decide (labeled_blocks = []) then print MsgNoHeadings
         else
           title ← resolve_title doc blocks;
           let clean_headings := filter_headings labeled_blocks in
           _ ← print (MsgRetained (length clean_headings));
           if decide (clean_headings = []) then print MsgAllFilteredOut
           else
             let outline_data := build_outline_json title clean_headings in
             _ ← makedirs env output_dir;
             let output_filename := splitext_root env file_name +:+ ".json" in
             let output_path := path_join env output_dir output_filename in
             _ ← write_output_json env outline_data output_path;
             print (MsgSaved output_path))
    (λ e, print (MsgError file_name e)).

(** * Definitions used to state the properties *)

(** The font sizes of the fragments, each rounded to two decimals. *)
Definition rounded_sizes (lines : list Fragment) : list Qc :=
  (λ line, round2 (font_size line)) <$> lines.

(** The distinct rounded sizes, largest first. *)
Definition sizes_descending (lines : list Fragment) : list Qc :=
  sorted id (flip Qc_ltb) (counter_keys (Counter (rounded_sizes lines))).

(** The labelled copy of [line] that the loop of [assign_heading_levels]
    appends, if the rounded size of [line] is a key of the map. *)
Definition label_line (font_level_map : gmap Qc string) (line : Fragment)
    : option LabeledFragment :=
  lv ← font_level_map !! round2 (font_size line);
  Some {| frag := {| text := text line;
                     font_size := round2 (font_size line);
                     font_name := font_name line;
                     x0 := x0 line;
                     y0 := y0 line;
                     page := page line |};
          level := lv |}.

(** An emitted item carries the fields of its source fragment, with the
    font size rounded. *)
Definition labels (m : gmap Qc string) (out : LabeledFragment) (line : Fragment) : Prop :=
  text (frag out) = text line
  ∧ font_size (frag out) = round2 (font_size line)
  ∧ font_name (frag out) = font_name line
  ∧ x0 (frag out) = x0 line
  ∧ y0 (frag out) = y0 line
  ∧ page (frag out) = page line
  ∧ m !! round2 (font_size line) = Some (level out).

(** The fragments the title is looked for in: those of page 1 or, when
    there is none, the first ten of the document. *)
Definition restricted_set (lines : list Fragment) : list Fragment :=
  let page1 := filter (λ line, page line = 1%Z) lines in
  if decide (page1 = []) then take 10 lines else page1.


(** The heading emitted for a labelled fragment that passes the tests. *)
Definition heading_of (line : LabeledFragment) : Heading :=
  {| h_level := level line;
     h_text := strip (text (frag line));
     h_page := page (frag line) |}.

(** The three tests of the loop: none of the [continue]s fires. *)
Definition passes (text_counter : list (string * nat)) (line : LabeledFragment) : Prop :=
  (String.length (strip (text (frag line))) ≤ 120)%nat
  ∧ (counter_get text_counter (strip (text (frag line))) ≤ 2)%nat
  ∧ y0 (frag line) ≤ Q2Qc 750.

Global Instance passes_dec text_counter line : Decision (passes text_counter line).
Proof. unfold passes. apply _. Defined.

(** The texts, untrimmed, that [filter_headings] counts. *)
Definition raw_texts (labeled_lines : list LabeledFragment) : list string :=
  (λ line, text (frag line)) <$> labeled_lines.

(** The labelled fragments that [filter_headings] retains. *)
Definition survivors (labeled_lines : list LabeledFragment) : list LabeledFragment :=
  filter (passes (Counter (raw_texts labeled_lines))) labeled_lines.

(** *** The filter as the specification words it

    Section 4.4 counts repetitions per distinct _trimmed_ text value. *)

Definition trimmed_texts (labeled_lines : list LabeledFragment) : list string :=
  (λ line, strip (text (frag line))) <$> labeled_lines.

Definition retained_by_spec (labeled_lines : list LabeledFragment)
    (line : LabeledFragment) : Prop :=
  (String.length (strip (text (frag line))) ≤ 120)%nat
  ∧ (occurrences (strip (text (frag line))) (trimmed_texts labeled_lines) ≤ 2)%nat
  ∧ y0 (frag line) ≤ Q2Qc 750.

Global Instance retained_by_spec_dec labeled_lines line :
  Decision (retained_by_spec labeled_lines line).
Proof. unfold retained_by_spec. apply _. Defined.

Definition filter_headings_spec (labeled_lines : list LabeledFragment) : list Heading :=
  heading_of <$> filter (retained_by_spec labeled_lines) labeled_lines.


(** The world after printing [msgs]. *)
Definition say (w : World) (msgs : list Msg) : World :=
  {| files := files w; stdout := stdout w ++ msgs |}.

Definition is_error (msg : Msg) : bool :=
  match msg with
  | MsgError _ _ => true
  | _ => false
  end.

(** The messages printed when a document is skipped. *)
Definition is_skip (msg : Msg) : bool :=
  match msg with
  | MsgNoBlocks | MsgCouldNotRank | MsgNoHeadings | MsgAllFilteredOut => true
  | _ => false
  end.

(** * Sample inputs *)

Definition fragment (t : string) (size x y : Q) (p : Z) : Fragment :=
  {| text := t; font_size := Q2Qc size; font_name := "Helvetica";
     x0 := Q2Qc x; y0 := Q2Qc y; page := p |}.

(** The two page-1 fragments of the title example of the specification. *)
Definition title_example : list Fragment :=
  [ fragment "Intro" 24 250 50 1; fragment "Body text here" 12 50 80 1 ].

(** Three distinct sizes, and the same fragments in another order. *)
Definition three_sizes : list Fragment :=
  [ fragment "Title Page" 24 100 60 1;
    fragment "Section" 18 72 100 1;
    fragment "Body" 12 72 130 1 ].

Definition three_sizes_permuted : list Fragment :=
  [ fragment "Body" 12 72 130 1;
    fragment "Title Page" 24 100 60 1;
    fragment "Section" 18 72 100 1 ].

Definition labeled (t : string) (y : Q) (p : Z) : LabeledFragment :=
  {| frag := fragment t 18 72 y p; level := "H2" |}.

(** A running header whose extracted text kept a leading blank, on three
    pages. *)
Definition padded_header : list LabeledFragment :=
  [ labeled " Page" 100 1; labeled " Page" 100 2; labeled " Page" 100 3 ].


(** A document with a single span, low on the page. *)
Definition span (t : string) (size x y : Q) : Span :=
  {| span_text := t; span_size := Q2Qc size; span_font := "Helvetica";
     span_origin := (Q2Qc x, Q2Qc y) |}.

Definition text_block (spans : list Span) : Block :=
  {| block_lines := Some [spans] |}.

Definition footer_only : Document :=
  {| metadata := ∅;
     pages := [ [ text_block [ span "Confidential" 9 72 800 ] ] ] |}.

(** The end-to-end scenario of the specification, with a metadata title. *)
Definition report : Document :=
  {| metadata := {[ "title" := " Report 2024 " ]};
     pages :=
       [ [ text_block [ span "Title Page" 24 100 60 ];
           text_block [ span "Section" 18 72 100 ];
           text_block [ span "Some body text" 12 72 130 ];
           {| block_lines := None |} ];
         [ text_block [ span "Section" 18 72 300 ];
           text_block [ span " " 12 72 320; span "More body text" 12 72 330 ] ];
         [ text_block [ span "Section" 18 72 770 ] ] ] |}.

(** [os.path] on the paths of the examples: relative names, [/] as the
    separator. *)
Fixpoint after_last_slash (acc s : string) : string :=
  match s with
  | EmptyString => acc
  | String c s' =>
      if Ascii.eqb c "/" then after_last_slash s' s' else after_last_slash acc s'
  end.

Fixpoint before_last (sep : ascii) (s : string) : option string :=
  match s with
  | EmptyString => None
  | String c s' =>
      match before_last sep s' with
      | Some r => Some (String c r)
      | None => if Ascii.eqb c sep then Some EmptyString else None
      end
  end.

Definition sample_env (doc : Document) : Env :=
  {| fitz_open := λ _, Ok doc;
     basename := λ p, after_last_slash p p;
     dirname := λ p, default EmptyString (before_last "/" p);
     splitext_root := λ p, default p (before_last "." p);
     path_join := λ a b, a +:+ "/" +:+ b;
     makedirs_ok := λ _, true;
     open_ok := λ _, true |}.

Definition empty_world : World := {| files := ∅; stdout := [] |}.

(** * The rest of the module *)

(** ** extract_lines *)

(** The body of the loop over the lines of a block in [extract_lines]: the
    fragment of one line, given as its spans, or nothing when one of the
    [continue]s fires. *)
Definition line_fragment (page_num : Z) (spans : list Span) : option Fragment :=
  let clean_spans := filter (λ s, strip (span_text s) ≠ EmptyString) spans in
  first_span ← head clean_spans;
  let line_text :=
    String.concat " " ((λ span, strip (span_text span)) <$> clean_spans) in
  if decide (line_text = EmptyString) then None
  else
    let avg_font_size :=
      py_sum (span_size <$> clean_spans)
      / Q2Qc (inject_Z (Z.of_nat (length clean_spans))) in
    Some {| text := strip line_text;
            font_size := round2 avg_font_size;
            font_name := span_font first_span;
            x0 := (span_origin first_span).1;
            y0 := (span_origin first_span).2;
            page := page_num |}.

Definition extract_lines (doc : Document) : list Fragment :=
  mjoin (imap (λ i blocks,
                 mjoin ((λ block,
                           omap (line_fragment (Z.of_nat (S i)))
                                (default [] (block_lines block))) <$> blocks))
              (pages doc)).

(** ** main *)

(** [str.lower] on the code points below 256. *)
Definition lower_char (c : ascii) : ascii :=
  let n := nat_of_ascii c in
  if ((65 <=? n)%nat && (n <=? 90)%nat)
     || ((192 <=? n)%nat && (n <=? 222)%nat && negb (n =? 215)%nat)
  then ascii_of_nat (n + 32)
  else c.

Fixpoint py_lower (s : string) : string :=
  match s with
  | EmptyString => EmptyString
  | String c s' => String (lower_char c) (py_lower s')
  end.

(** [s.endswith(suffix)] *)
Fixpoint endswith (s suffix : string) : bool :=
  String.eqb s suffix
  || match s with
     | EmptyString => false
     | String _ s' => endswith s' suffix
     end.

(** The test of the comprehension that selects the PDF files. *)
Definition is_pdf_name (f : string) : bool := endswith (py_lower f) ".pdf".

Inductive MainMsg : Type :=
  | MsgLooking (path : string)
  | MsgInputNotFound (input_dir : string)
  | MsgNoPdfFiles
  | MsgFound (n : nat) (pdf_files : list string)
  | MsgFailed (file_name : string) (e : exn)
  | MsgAllDone.

(** What [main] needs besides the collaborators of [process_pdf]. *)
Record BatchEnv : Type := {
  benv : Env;
  path_exists : string → bool;
  listdir : string → result (list string);
  abspath : string → string
}.

(** The world of [main]: the written files, and the messages of [main]
    and of the calls of [process_pdf] in the order they are printed. *)
Record Batch : Type := {
  batch_files : gmap string Outline;
  batch_stdout : list (MainMsg + Msg)
}.

Definition main_print (msg : MainMsg) (b : Batch) : Batch :=
  {| batch_files := batch_files b; batch_stdout := batch_stdout b ++ [inl msg] |}.

(** A call of [process_pdf] from [main]. *)
Definition call_process_pdf (env : Env) (file_path output_dir : string) (b : Batch)
    : Batch * result unit :=
  let '(w, r) := process_pdf env file_path output_dir
                             {| files := batch_files b; stdout := [] |} in
  ({| batch_files := files w; batch_stdout := batch_stdout b ++ (inr <$> stdout w) |}, r).

(** The body of the loop over the PDF files. *)
Definition main_step (be : BatchEnv) (input_dir output_dir : string)
    (b : Batch) (file_name : string) : Batch :=
  let file_path := path_join (benv be) input_dir file_name in
  match call_process_pdf (benv be) file_path output_dir b with
  | (b', Ok _) => b'
  | (b', Raise e) => main_print (MsgFailed file_name e) b'
  end.

Definition main (be : BatchEnv) (input_dir output_dir : option string) (b : Batch)
    : Batch * result unit :=
  let input_dir := default "app/input" input_dir in
  let output_dir := default "app/output" output_dir in
  let b := main_print (MsgLooking (abspath be input_dir)) b in
  if negb (path_exists be input_dir)
  then (main_print (MsgInputNotFound input_dir) b, Ok ())
  else
    match listdir be input_dir with
    | Raise e => (b, Raise e)
    | Ok names =>
        let pdf_files := filter (λ f, is_pdf_name f = true) names in
        if decide (pdf_files = []) then (main_print MsgNoPdfFiles b, Ok ())
        else
          let b := main_print (MsgFound (length pdf_files) pdf_files) b in
          if makedirs_ok (benv be) output_dir
          then
            let b := foldl (main_step be input_dir output_dir) b pdf_files in
            (main_print MsgAllDone b, Ok ())
          else (b, Raise OSError)
    end.

(** ** Definitions used to state the further properties *)

(** The path of the JSON file that [process_pdf] writes for [file_path]. *)
Definition output_path (env : Env) (file_path output_dir : string) : string :=
  path_join env output_dir (splitext_root env (basename env file_path) +:+ ".json").

(** The title of a document: the one of the metadata, or else the one
    inferred from the blocks. *)
Definition title_resolved (doc : Document) (blocks : list Fragment) (t : string) : Prop :=
  get_title_from_metadata doc = Some t
  ∨ (get_title_from_metadata doc = None
     ∧ infer_title_from_lines blocks None = Ok t).

(** The headings that [process_pdf] computes for a document. *)
Definition clean_headings_of (doc : Document) : list Heading :=
  filter_headings
    (assign_heading_levels (extract_blocks doc) (rank_font_sizes (extract_blocks doc))).

(** Whether the directories can be made and the file opened. *)
Definition can_write (env : Env) (file_path output_dir : string) : bool :=
  makedirs_ok env output_dir
  && makedirs_ok env (dirname env (output_path env file_path output_dir))
  && open_ok env (output_path env file_path output_dir).

(** ** Further sample inputs *)

(** Collaborators for which no PDF can be opened. *)
Definition unreadable_env : Env :=
  {| fitz_open := λ _, Raise OSError;
     basename := λ p, after_last_slash p p;
     dirname := λ p, default EmptyString (before_last "/" p);
     splitext_root := λ p, default p (before_last "." p);
     path_join := λ a b, a +:+ "/" +:+ b;
     makedirs_ok := λ _, true;
     open_ok := λ _, true |}.

(** Collaborators for which no file can be opened for writing. *)
Definition read_only_env (doc : Document) : Env :=
  {| fitz_open := λ _, Ok doc;
     basename := λ p, after_last_slash p p;
     dirname := λ p, default EmptyString (before_last "/" p);
     splitext_root := λ p, default p (before_last "." p);
     path_join := λ a b, a +:+ "/" +:+ b;
     makedirs_ok := λ _, true;
     open_ok := λ _, false |}.

(** A file system with the one directory [app/input], whose listing is
    [listing]; directories can be made when [can_make] holds. *)
Definition sample_batch_env (doc : Document) (listing : result (list string))
    (can_make : bool) : BatchEnv :=
  {| benv := {| fitz_open := λ _, Ok doc;
                basename := λ p, after_last_slash p p;
                dirname := λ p, default EmptyString (before_last "/" p);
                splitext_root := λ p, default p (before_last "." p);
                path_join := λ a b, a +:+ "/" +:+ b;
                makedirs_ok := λ _, can_make;
                open_ok := λ _, true |};
     path_exists := λ p, String.eqb p "app/input";
     listdir := λ _, listing;
     abspath := λ p, "/srv/" +:+ p |}.

Definition empty_batch : Batch := {| batch_files := ∅; batch_stdout := [] |}.

Definition sample_listing : list string := [ "report.pdf"; "notes.txt"; "SCAN.PDF" ].


(** A text of 121 characters. *)
Definition long_text : string := String.concat "" (replicate 121 "a").

Definition scope_heading : Heading :=
  {| h_level := "H1"; h_text := "Scope"; h_page := 1 |}.

(** The first labelled fragment of [three_sizes] under its own ranking. *)
Definition title_page_labeled : LabeledFragment :=
  {| frag := fragment "Title Page" 24 100 60 1; level := "H1" |}.

(** * Properties *)

(** ** The error monad *)

Lemma result_bind_Ok {A B} (a : A) (k : A → result B) : (Ok a ≫= k) = k a.
Proof. reflexivity. Qed.

Lemma result_bind_Raise {A B} (e : exn) (k : A → result B) : (Raise e ≫= k) = Raise e.
Proof. reflexivity. Qed.

(** ** Comparisons *)

Lemma Qc_ltb_lt (x y : Qc) : Qc_ltb x y = true ↔ x < y.
Proof. unfold Qc_ltb. apply bool_decide_eq_true. Qed.

Lemma Qc_ltb_ge (x y : Qc) : Qc_ltb x y = false ↔ y ≤ x.
Proof. unfold Qc_ltb. rewrite bool_decide_eq_false. symmetry. apply Qcle_ngt. Qed.


(** [Qc_abs] is the absolute value. *)
Lemma Qc_abs_cases (x : Qc) :
  (0 ≤ x ∧ Qc_abs x = x) ∨ (x < 0 ∧ Qc_abs x = - x).
Proof.
  unfold Qc_abs. destruct (Qc_ltb x 0) eqn:E.
  - right. by apply Qc_ltb_lt in E.
  - left. by apply Qc_ltb_ge in E.
Qed.

(** ** Counter *)

Section counter_facts.
Context {K : Type} `{EqDecision K}.
Implicit Types (k : K) (c : list (K * nat)) (l : list K).

Lemma counter_keys_incr k c :
  counter_keys (counter_incr k c) =
    if decide (k ∈ counter_keys c) then counter_keys c else counter_keys c ++ [k].
Proof.
  unfold counter_keys. induction c as [|[k' n] c IH]; csimpl.
  - done.
  - destruct (decide (k = k')) as [->|Hne]; csimpl.
    + rewrite decide_True by set_solver. done.
    + rewrite IH. destruct (decide (k ∈ c.*1)).
      * rewrite decide_True by set_solver. done.
      * rewrite decide_False by set_solver. done.
Qed.

Lemma counter_get_incr k k' c :
  counter_get (counter_incr k c) k' =
    if decide (k' = k) then S (counter_get c k') else counter_get c k'.
Proof.
  induction c as [|[k'' n] c IH]; simpl.
  - destruct (decide (k' = k)); done.
  - destruct (decide (k = k'')) as [->|Hne]; simpl.
    + destruct (decide (k' = k'')); done.
    + destruct (decide (k' = k'')) as [->|Hne'].
      * rewrite decide_False; [done | congruence].
      * apply IH.
Qed.

Lemma counter_foldl_keys l c :
  NoDup (counter_keys c) →
  NoDup (counter_keys (foldl (λ c k, counter_incr k c) c l))
  ∧ ∀ k, k ∈ counter_keys (foldl (λ c k, counter_incr k c) c l)
         ↔ k ∈ counter_keys c ∨ k ∈ l.
Proof.
  revert c. induction l as [|x l IH]; intros c Hc; simpl.
  - split; [done | set_solver].
  - destruct (IH (counter_incr x c)) as [Hnd Hin].
    { rewrite counter_keys_incr. destruct (decide (x ∈ counter_keys c)); [done|].
      apply NoDup_app. split_and!; [done | set_solver | apply NoDup_singleton]. }
    split; [done|]. intros k. rewrite Hin, counter_keys_incr.
    destruct (decide (x ∈ counter_keys c)); set_solver.
Qed.

(** The keys of a [Counter] are the distinct elements of the input. *)
Lemma Counter_keys_NoDup l : NoDup (counter_keys (Counter l)).
Proof. apply counter_foldl_keys. constructor. Qed.

Lemma Counter_keys_elem l k : k ∈ counter_keys (Counter l) ↔ k ∈ l.
Proof.
  unfold Counter. rewrite (proj2 (counter_foldl_keys l [] (NoDup_nil_2))).
  set_solver.
Qed.

Lemma Counter_keys_remove_dups l : counter_keys (Counter l) ≡ₚ remove_dups l.
Proof.
  apply NoDup_Permutation.
  - apply Counter_keys_NoDup.
  - apply NoDup_remove_dups.
  - intros k. rewrite Counter_keys_elem, elem_of_remove_dups. done.
Qed.

Lemma Counter_keys_perm l1 l2 :
  l1 ≡ₚ l2 → counter_keys (Counter l1) ≡ₚ counter_keys (Counter l2).
Proof.
  intros Hp. apply NoDup_Permutation; try apply Counter_keys_NoDup.
  intros k. rewrite !Counter_keys_elem. by rewrite Hp.
Qed.

Lemma counter_foldl_get l c k :
  counter_get (foldl (λ c k, counter_incr k c) c l) k
  = (counter_get c k + occurrences k l)%nat.
Proof.
  revert c. induction l as [|x l IH]; intros c; simpl.
  - unfold occurrences. simpl. lia.
  - rewrite IH, counter_get_incr. unfold occurrences. rewrite filter_cons.
    destruct (decide (k = x)) as [->|Hne].
    + rewrite decide_True by done. simpl. lia.
    + rewrite decide_False by congruence. done.
Qed.

(** [Counter(l)[k]] is the number of occurrences of [k] in [l]. *)
Lemma Counter_get l k : counter_get (Counter l) k = occurrences k l.
Proof. unfold Counter. rewrite counter_foldl_get. done. Qed.
End counter_facts.

(** ** The stable sort *)

Section sorted_facts.
Context {A K : Type} (key : A → K) (lt : K → K → bool).

Hypothesis lt_asym : ∀ a b, lt a b = true → lt b a = false.
Hypothesis lt_negtrans : ∀ a b c, lt b a = false → lt c b = false → lt c a = false.

Lemma insort_Permutation x l : insort key lt x l ≡ₚ x :: l.
Proof.
  induction l as [|y l IH]; simpl; [done|].
  destruct (lt (key y) (key x)); [|done].
  rewrite IH. apply perm_swap.
Qed.

Lemma sorted_Permutation l : sorted key lt l ≡ₚ l.
Proof.
  induction l as [|x l IH]; simpl; [done|].
  by rewrite insort_Permutation, IH.
Qed.

Lemma insort_StronglySorted x l :
  StronglySorted (key_le key lt) l → StronglySorted (key_le key lt) (insort key lt x l).
Proof.
  induction 1 as [|y l Hl IH Hy]; simpl.
  - repeat constructor.
  - destruct (lt (key y) (key x)) eqn:Hlt.
    + constructor; [done|].
      rewrite insort_Permutation. constructor; [|done].
      unfold key_le. by apply lt_asym.
    + constructor; [by constructor|].
      constructor; [done|].
      eapply Forall_impl; [exact Hy|].
      intros z Hz. unfold key_le in *. by eapply lt_negtrans.
Qed.

Lemma sorted_StronglySorted l : StronglySorted (key_le key lt) (sorted key lt l).
Proof.
  induction l as [|x l IH]; simpl; [constructor|].
  by apply insort_StronglySorted.
Qed.


Lemma sorted_nil_inv l : sorted key lt l = [] → l = [].
Proof.
  intros Hs. apply Permutation_nil_r. rewrite <- Hs.
  symmetry. apply sorted_Permutation.
Qed.
End sorted_facts.

Lemma StronglySorted_weaken {A} (R1 R2 : relation A) (l : list A) :
  (∀ x y, R1 x y → R2 x y) → StronglySorted R1 l → StronglySorted R2 l.
Proof.
  intros HR. induction 1 as [|x l Hl IH Hx]; constructor; [done|].
  eapply Forall_impl; [exact Hx | auto].
Qed.

(** Descending sort of floats. *)
Lemma sorted_desc_key_le (x y : Qc) : key_le id (flip Qc_ltb) x y ↔ y ≤ x.
Proof. unfold key_le, flip, id. apply Qc_ltb_ge. Qed.

Lemma Qc_ltb_asym (a b : Qc) : Qc_ltb a b = true → Qc_ltb b a = false.
Proof. rewrite Qc_ltb_lt, Qc_ltb_ge. apply Qclt_le_weak. Qed.

Lemma Qc_ltb_negtrans (a b c : Qc) :
  Qc_ltb b a = false → Qc_ltb c b = false → Qc_ltb c a = false.
Proof. rewrite !Qc_ltb_ge. intros ??. by eapply Qcle_trans. Qed.

Lemma sorted_desc_Permutation (l : list Qc) : sorted id (flip Qc_ltb) l ≡ₚ l.
Proof. apply sorted_Permutation. Qed.

Lemma sorted_desc_StronglySorted (l : list Qc) :
  StronglySorted (λ x y, y ≤ x) (sorted id (flip Qc_ltb) l).
Proof.
  eapply StronglySorted_weaken; [|apply sorted_StronglySorted].
  - intros x y. apply sorted_desc_key_le.
  - intros a b. unfold flip. apply Qc_ltb_asym.
  - intros a b c. unfold flip. intros ??. by eapply Qc_ltb_negtrans.
Qed.

(** Sorting distinct sizes in descending order gives a strictly
    descending list. *)
Lemma sorted_desc_strict (l : list Qc) :
  NoDup l → StronglySorted (λ x y, y < x) (sorted id (flip Qc_ltb) l).
Proof.
  intros Hnd. rewrite <- (sorted_desc_Permutation l) in Hnd.
  pose proof (sorted_desc_StronglySorted l) as Hs.
  induction Hs as [|x l' Hs IH Hx]; [constructor|].
  apply NoDup_cons in Hnd as [Hx' Hnd].
  constructor; [by apply IH|].
  apply Forall_forall. intros y Hy.
  eapply Forall_forall in Hx; [|exact Hy].
  apply Qcle_lt_or_eq in Hx as [?| ->]; done.
Qed.

(** Two lists with the same distinct sizes sort to the same list. *)
Lemma sorted_desc_unique (l1 l2 : list Qc) :
  l1 ≡ₚ l2 → sorted id (flip Qc_ltb) l1 = sorted id (flip Qc_ltb) l2.
Proof.
  intros Hp.
  assert (AntiSymm (=) (λ x y : Qc, y ≤ x)) as Hanti.
  { intros x y ??. by apply Qcle_antisym. }
  apply (StronglySorted_unique (λ x y : Qc, y ≤ x)).
  - apply sorted_desc_StronglySorted.
  - apply sorted_desc_StronglySorted.
  - by rewrite !sorted_desc_Permutation.
Qed.

(** ** rank_font_sizes *)

Lemma rank_font_sizes_sizes_descending lines :
  rank_font_sizes lines =
    foldl (λ level_map '(i, size), <[size := heading_levels !!! i]> level_map)
          ∅ (enumerate (take 3 (sizes_descending lines))).
Proof. reflexivity. Qed.

Lemma rank_font_sizes_top3 lines a b c rest :
  sizes_descending lines = a :: b :: c :: rest →
  rank_font_sizes lines = <[c := "H3"]> (<[b := "H2"]> (<[a := "H1"]> ∅)).
Proof. intros E. rewrite rank_font_sizes_sizes_descending, E. reflexivity. Qed.

Lemma sizes_descending_length lines :
  length (sizes_descending lines) = length (remove_dups (rounded_sizes lines)).
Proof.
  unfold sizes_descending.
  by rewrite sorted_desc_Permutation, Counter_keys_remove_dups.
Qed.

Lemma sizes_descending_strict lines :
  StronglySorted (λ x y, y < x) (sizes_descending lines).
Proof. apply sorted_desc_strict, Counter_keys_NoDup. Qed.

(** C1. If the fragments show at least three distinct rounded font sizes,
    [rank_font_sizes] returns a map with exactly three entries, H1, H2 and
    H3, whose keys are strictly descending: the H1 size is above the H2
    size, which is above the H3 size.  For the empty fragment list the
    map is empty. *)
Theorem rank_font_sizes_three_levels :
  rank_font_sizes [] = ∅
  ∧ ∀ lines : list Fragment,
      (3 ≤ length (remove_dups (rounded_sizes lines)))%nat →
      size (rank_font_sizes lines) = 3%nat
      ∧ ∃ s1 s2 s3 : Qc,
          rank_font_sizes lines = <[s3 := "H3"]> (<[s2 := "H2"]> {[ s1 := "H1" ]})
          ∧ rank_font_sizes lines !! s1 = Some "H1"
          ∧ rank_font_sizes lines !! s2 = Some "H2"
          ∧ rank_font_sizes lines !! s3 = Some "H3"
          ∧ s2 < s1 ∧ s3 < s2.
Proof.
  split; [reflexivity|].
  intros lines Hlen.
  rewrite <- sizes_descending_length in Hlen.
  pose proof (sizes_descending_strict lines) as Hs.
  destruct (sizes_descending lines) as [|a [|b [|c rest]]] eqn:E;
    simpl in Hlen; try lia.
  rewrite (rank_font_sizes_top3 _ _ _ _ _ E). clear E.
  apply StronglySorted_inv in Hs as [Hs Ha].
  apply StronglySorted_inv in Hs as [_ Hb].
  apply Forall_cons in Ha as [Hba Ha]. apply Forall_cons in Ha as [Hca _].
  apply Forall_cons in Hb as [Hcb _].
  assert (a ≠ b) by (intros ->; by apply Qclt_not_eq in Hba).
  assert (a ≠ c) by (intros ->; by apply Qclt_not_eq in Hca).
  assert (b ≠ c) by (intros ->; by apply Qclt_not_eq in Hcb).
  split.
  - rewrite !map_size_insert_None, map_size_empty; [done|..];
      by simplify_map_eq.
  - exists a, b, c. split_and!; try done; by simplify_map_eq.
Qed.

(** C8. [rank_font_sizes] depends only on the multiset of rounded font
    sizes: two fragment lists whose rounded sizes are permutations of each
    other (in particular two permutations of one list) get the same map. *)
Theorem rank_font_sizes_order_independent (lines1 lines2 : list Fragment) :
  rounded_sizes lines1 ≡ₚ rounded_sizes lines2 →
  rank_font_sizes lines1 = rank_font_sizes lines2.
Proof.
  intros Hp. rewrite !rank_font_sizes_sizes_descending.
  unfold sizes_descending.
  by rewrite (sorted_desc_unique _ _ (Counter_keys_perm _ _ Hp)).
Qed.

Lemma rounded_sizes_Permutation (lines1 lines2 : list Fragment) :
  lines1 ≡ₚ lines2 → rounded_sizes lines1 ≡ₚ rounded_sizes lines2.
Proof. intros Hp. unfold rounded_sizes. by rewrite Hp. Qed.

(** The map has one entry per distinct size, up to three. *)
Lemma rank_font_sizes_size lines :
  size (rank_font_sizes lines)
  = (3 `min` length (remove_dups (rounded_sizes lines)))%nat.
Proof.
  rewrite <- sizes_descending_length.
  pose proof (sizes_descending_strict lines) as Hs.
  rewrite rank_font_sizes_sizes_descending.
  destruct (sizes_descending lines) as [|a [|b [|c rest]]].
  - done.
  - change (size (<[a := "H1"]> (∅ : gmap Qc string)) = 1%nat).
    by rewrite map_size_insert_None, map_size_empty.
  - change (size (<[b := "H2"]> (<[a := "H1"]> (∅ : gmap Qc string))) = 2%nat).
    apply StronglySorted_inv in Hs as [_ [Hba _]%Forall_cons].
    assert (a ≠ b) by (intros ->; by apply Qclt_not_eq in Hba).
    rewrite !map_size_insert_None, map_size_empty; [done|..]; by simplify_map_eq.
  - change (size (<[c := "H3"]> (<[b := "H2"]> (<[a := "H1"]> (∅ : gmap Qc string))))
            = 3%nat).
    apply StronglySorted_inv in Hs as [Hs Ha].
    apply StronglySorted_inv in Hs as [_ Hb].
    apply Forall_cons in Ha as [Hba Ha]. apply Forall_cons in Ha as [Hca _].
    apply Forall_cons in Hb as [Hcb _].
    assert (a ≠ b) by (intros ->; by apply Qclt_not_eq in Hba).
    assert (a ≠ c) by (intros ->; by apply Qclt_not_eq in Hca).
    assert (b ≠ c) by (intros ->; by apply Qclt_not_eq in Hcb).
    rewrite !map_size_insert_None, map_size_empty; [done|..]; by simplify_map_eq.
Qed.

(** The largest rounded size is always a key: on a non-empty fragment
    list the map is not empty. *)
Lemma rank_font_sizes_largest lines :
  lines ≠ [] →
  ∃ line, line ∈ lines ∧ rank_font_sizes lines !! round2 (font_size line) = Some "H1".
Proof.
  intros Hne.
  destruct (sizes_descending lines) as [|a rest] eqn:E.
  { apply (f_equal length) in E. rewrite sizes_descending_length in E.
    apply nil_length_inv in E.
    assert (rounded_sizes lines = []) as E'.
    { destruct (rounded_sizes lines) as [|x l]; [done|].
      assert (x ∈ remove_dups (x :: l)) as Hx by (apply elem_of_remove_dups; by left).
      rewrite E in Hx. by apply elem_of_nil in Hx. }
    by destruct lines. }
  assert (a ∈ rounded_sizes lines) as Ha.
  { apply (Counter_keys_elem (rounded_sizes lines)).
    rewrite <- (sorted_desc_Permutation (counter_keys _)).
    fold (sizes_descending lines). rewrite E. by left. }
  apply list_elem_of_fmap in Ha as (line & -> & Hline).
  exists line. split; [done|].
  pose proof (sizes_descending_strict lines) as Hs.
  rewrite rank_font_sizes_sizes_descending, E in *.
  apply StronglySorted_inv in Hs as [Hs Ha].
  destruct rest as [|b [|c rest]].
  - change (<[round2 (font_size line) := "H1"]> (∅ : gmap Qc string)
              !! round2 (font_size line) = Some "H1").
    by simplify_map_eq.
  - change (<[b := "H2"]> (<[round2 (font_size line) := "H1"]> (∅ : gmap Qc string))
              !! round2 (font_size line) = Some "H1").
    apply Forall_cons in Ha as [Hba _].
    assert (round2 (font_size line) ≠ b)
      by (intros Heq; rewrite Heq in Hba; by apply Qclt_not_eq in Hba).
    by simplify_map_eq.
  - change (<[c := "H3"]> (<[b := "H2"]>
              (<[round2 (font_size line) := "H1"]> (∅ : gmap Qc string)))
              !! round2 (font_size line) = Some "H1").
    apply Forall_cons in Ha as [Hba Ha]. apply Forall_cons in Ha as [Hca _].
    assert (round2 (font_size line) ≠ b)
      by (intros Heq; rewrite Heq in Hba; by apply Qclt_not_eq in Hba).
    assert (round2 (font_size line) ≠ c)
      by (intros Heq; rewrite Heq in Hca; by apply Qclt_not_eq in Hca).
    by simplify_map_eq.
Qed.

(** ** Rounding *)

Lemma round_half_even_Qeq (x y : Q) :
  (x == y)%Q → round_half_even x = round_half_even y.
Proof.
  intros E. unfold round_half_even.
  assert (Qfloor x = Qfloor y) as -> by (by rewrite E).
  assert (Qcompare (x - inject_Z (Qfloor y)) (1 # 2)
          = Qcompare (y - inject_Z (Qfloor y)) (1 # 2)) as -> by (by rewrite E).
  done.
Qed.

Lemma round_half_even_Z (n : Z) : round_half_even (inject_Z n) = n.
Proof.
  unfold round_half_even. rewrite Qfloor_Z.
  assert (Qcompare (inject_Z n - inject_Z n) (1 # 2) = Lt) as ->; [|done].
  apply (proj1 (Qlt_alt _ _)). unfold Qlt. simpl. lia.
Qed.

(** Rounding an already rounded size changes nothing. *)
Lemma round2_idemp (x : Qc) : round2 (round2 x) = round2 x.
Proof.
  unfold round2 at 1 3. apply Qc_is_canon. simpl.
  rewrite !Qred_correct.
  set (n := round_half_even (x * (100 # 1))%Q).
  assert (round_half_even (Qred (inject_Z n / (100 # 1)) * (100 # 1))%Q = n) as ->.
  { transitivity (round_half_even (inject_Z n)); [|apply round_half_even_Z].
    apply round_half_even_Qeq. rewrite Qred_correct. field. }
  by rewrite Qred_correct.
Qed.

(** ** assign_heading_levels *)

Lemma assign_heading_levels_omap lines m :
  assign_heading_levels lines m = omap (label_line m) lines.
Proof.
  unfold assign_heading_levels.
  match goal with
  | |- foldl ?body [] lines = _ =>
      enough (∀ acc, foldl body acc lines = acc ++ omap (label_line m) lines) as H
        by apply (H [])
  end.
  induction lines as [|line lines IH]; intros acc; simpl.
  - by rewrite app_nil_r.
  - rewrite IH. unfold label_line at 2.
    destruct (m !! round2 (font_size line)); simpl; [|done].
    by rewrite <- app_assoc.
Qed.

Lemma assign_heading_levels_labels lines m :
  Forall2 (labels m) (assign_heading_levels lines m)
          (filter (λ line, is_Some (m !! round2 (font_size line))) lines).
Proof.
  rewrite assign_heading_levels_omap.
  induction lines as [|line lines IH]; [constructor|].
  rewrite filter_cons. csimpl. unfold label_line at 1.
  destruct (m !! round2 (font_size line)) as [lv|] eqn:E; simpl.
  - constructor; [|exact IH]. unfold labels. simpl. by rewrite E.
  - exact IH.
Qed.

(** C5. The output of [assign_heading_levels] follows a subsequence of
    the input, in input order: the fragments whose rounded font size is a
    key of the map, each copied with its size rounded (and so unchanged
    when the sizes are already rounded, as the extractor delivers them).
    The rounded font size of every emitted item is a key of the map, and
    its level is the map's value for that key.  With the empty map the
    output is empty. *)
Theorem assign_heading_levels_subsequence (lines : list Fragment) :
  assign_heading_levels lines ∅ = []
  ∧ ∀ m : gmap Qc string,
      let out := assign_heading_levels lines m in
      let kept := filter (λ line, is_Some (m !! round2 (font_size line))) lines in
      kept `sublist_of` lines
      ∧ Forall2 (labels m) out kept
      ∧ Forall (λ o, m !! round2 (font_size (frag o)) = Some (level o)
                     ∧ m !! font_size (frag o) = Some (level o)) out
      ∧ (Forall (λ line, round2 (font_size line) = font_size line) lines →
         frag <$> out = kept).
Proof.
  split.
  - rewrite assign_heading_levels_omap.
    induction lines as [|line lines IH]; simpl; [done|].
    unfold label_line at 1. by rewrite lookup_empty.
  - intros m out kept.
    pose proof (assign_heading_levels_labels lines m) as Hlab.
    fold out kept in Hlab.
    split_and!.
    + apply sublist_filter.
    + done.
    + clearbody out kept. induction Hlab as [|o i out kept Ho _ IH]; constructor; [|done].
      destruct Ho as (_ & Hfs & _ & _ & _ & _ & Hm).
      by rewrite Hfs, round2_idemp.
    + intros Hr.
      assert (Forall (λ line, round2 (font_size line) = font_size line) kept) as Hk.
      { apply Forall_forall. intros x [_ Hx]%list_elem_of_filter.
        by eapply Forall_forall in Hr. }
      clearbody out kept. clear Hr.
      induction Hlab as [|o i out kept Ho _ IH]; csimpl; [done|].
      apply Forall_cons in Hk as [Hi Hk]. rewrite IH by done. f_equal.
      destruct Ho as (? & Hfs & ? & ? & ? & ? & _). rewrite Hi in Hfs.
      destruct o as [[] ?], i; simpl in *; congruence.
Qed.

(** With the map of [rank_font_sizes] at least the fragments of the
    largest size are labelled: after the check for an empty block list,
    the checks of [process_pdf] for an empty map and for an empty labelled
    list cannot fire. *)
Lemma rank_assign_nonempty (blocks : list Fragment) :
  blocks ≠ [] →
  rank_font_sizes blocks ≠ ∅
  ∧ assign_heading_levels blocks (rank_font_sizes blocks) ≠ [].
Proof.
  intros (line & Hline & Hm)%rank_font_sizes_largest. split.
  - intros E. by rewrite E, lookup_empty in Hm.
  - intros E.
    pose proof (assign_heading_levels_labels blocks (rank_font_sizes blocks)) as Hlab.
    rewrite E in Hlab. apply Forall2_nil_inv_l in Hlab.
    assert (line ∈ filter (λ line, is_Some (rank_font_sizes blocks !! round2 (font_size line)))
                          blocks) as Hin.
    { apply list_elem_of_filter. split; [by eexists | done]. }
    rewrite Hlab in Hin. by apply elem_of_nil in Hin.
Qed.

(** ** build_outline_json *)

(** C7. [build_outline_json] is a lossless merge: the title is the given
    title and the outline is the given heading list, same length, same
    order, each element with the level, text and page of the original. *)
Theorem build_outline_json_lossless (t : string) (headings : list Heading) :
  title (build_outline_json t headings) = t
  ∧ outline (build_outline_json t headings) = headings
  ∧ length (outline (build_outline_json t headings)) = length headings
  ∧ Forall2 (λ o h, h_level o = h_level h ∧ h_text o = h_text h ∧ h_page o = h_page h)
            (outline (build_outline_json t headings)) headings.
Proof.
  assert (outline (build_outline_json t headings) = headings) as Hout.
  { unfold build_outline_json. simpl.
    induction headings as [|[lv tx pg] headings IH]; csimpl; [done|].
    by rewrite IH. }
  split_and!; [done | done | by rewrite Hout |].
  rewrite Hout. clear Hout. induction headings; by constructor.
Qed.

(** ** infer_title_from_lines *)

Lemma py_max_foldl (m : Qc) (l : list Qc) :
  let r := foldl (λ m y, if Qc_ltb m y then y else m) m l in
  r ∈ m :: l ∧ m ≤ r ∧ Forall (λ x, x ≤ r) l.
Proof.
  revert m. induction l as [|y l IH]; intros m; simpl.
  - split_and!; [by left | apply Qcle_refl | constructor].
  - destruct (Qc_ltb m y) eqn:E.
    + apply Qc_ltb_lt in E. destruct (IH y) as (Hin & Hle & Hall).
      split_and!.
      * by right.
      * eapply Qcle_trans; [by apply Qclt_le_weak | done].
      * by constructor.
    + apply Qc_ltb_ge in E. destruct (IH m) as (Hin & Hle & Hall).
      split_and!.
      * apply elem_of_cons in Hin as [->|Hin]; [by left | by do 2 right].
      * done.
      * constructor; [by eapply Qcle_trans | done].
Qed.

(** [max] of a non-empty list returns a member that bounds the others. *)
Lemma py_max_Ok (l : list Qc) :
  l ≠ [] → ∃ m, py_max l = Ok m ∧ m ∈ l ∧ Forall (λ x, x ≤ m) l.
Proof.
  destruct l as [|x l]; [done|]. intros _. simpl.
  destruct (py_max_foldl x l) as (Hin & Hle & Hall).
  eexists. split_and!; [done | done | by constructor].
Qed.

Lemma restricted_set_nonempty lines : lines ≠ [] → restricted_set lines ≠ [].
Proof.
  unfold restricted_set. intros Hne.
  destruct (decide (filter _ lines = [])); [|done].
  by destruct lines.
Qed.

Lemma infer_title_from_lines_restricted lines page_width :
  infer_title_from_lines lines page_width =
    max_size ← py_max (font_size <$> restricted_set lines);
    match sorted (title_key (page_width_arg page_width)) pair_ltb
            (filter (λ line, round2 (font_size line) = round2 max_size
                             ∧ (String.length (text line) ≤ 100)%nat)
                    (restricted_set lines)) with
    | c :: _ => Ok (strip (text c))
    | [] =>
        match sorted y0 Qc_ltb (restricted_set lines) with
        | top_line :: _ => Ok (strip (text top_line))
        | [] => Raise IndexError
        end
    end.
Proof.
  unfold infer_title_from_lines, restricted_set.
  destruct (decide (filter _ lines = [])) as [E|E].
  - by rewrite bool_decide_eq_true_2.
  - by rewrite bool_decide_eq_false_2.
Qed.





(** On a non-empty fragment list [infer_title_from_lines] returns. *)
Lemma infer_title_from_lines_Ok lines page_width :
  lines ≠ [] → ∃ s, infer_title_from_lines lines page_width = Ok s.
Proof.
  intros Hne%restricted_set_nonempty.
  rewrite infer_title_from_lines_restricted.
  destruct (py_max_Ok (font_size <$> restricted_set lines)) as (m & -> & _).
  { by destruct (restricted_set lines). }
  simpl. destruct (sorted (title_key _) _ _); [|by eexists].
  destruct (sorted y0 Qc_ltb (restricted_set lines)) eqn:E; [|by eexists].
  by apply sorted_nil_inv in E.
Qed.


(** C10. On the empty fragment list [infer_title_from_lines] returns no
    value: the page-1 selection and the first-ten fallback are both empty
    and [max] of the empty collection raises.  The function returns a
    string exactly when its input is non-empty. *)
Theorem infer_title_from_lines_empty_raises (page_width : option Qc) :
  filter (λ line, page line = 1%Z) ([] : list Fragment) = []
  ∧ take 10 ([] : list Fragment) = []
  ∧ py_max (font_size <$> []) = Raise ValueError
  ∧ infer_title_from_lines [] page_width = Raise ValueError
  ∧ ∀ lines : list Fragment,
      (∃ s, infer_title_from_lines lines page_width = Ok s) ↔ lines ≠ [].
Proof.
  split_and!; try reflexivity.
  intros lines. split.
  - intros [s Hs] ->. discriminate Hs.
  - apply infer_title_from_lines_Ok.
Qed.

(** ** strip *)

Lemma lstrip_head (s : string) :
  lstrip s = EmptyString
  ∨ ∃ c t, lstrip s = String c t ∧ is_space c = false.
Proof.
  induction s as [|c s IH]; simpl; [by left|].
  destruct (is_space c) eqn:E; [done|]. right. by exists c, s.
Qed.

Lemma lstrip_idemp (s : string) : lstrip (lstrip s) = lstrip s.
Proof.
  destruct (lstrip_head s) as [->|(c & t & -> & Hc)]; simpl; [done|].
  by rewrite Hc.
Qed.

Lemma rstrip_head (c : ascii) (t : string) :
  is_space c = false → ∃ r, rstrip (String c t) = String c r.
Proof.
  intros Hc. simpl. destruct (rstrip t); [|by eexists].
  rewrite Hc. by eexists.
Qed.

Lemma rstrip_idemp (s : string) : rstrip (rstrip s) = rstrip s.
Proof.
  induction s as [|c s IH]; simpl; [done|].
  destruct (rstrip s) as [|c' r] eqn:E.
  - destruct (is_space c) eqn:Hc; simpl; [done|]. by rewrite Hc.
  - change (rstrip (String c (String c' r))) with
      (match rstrip (String c' r) with
       | EmptyString => if is_space c then EmptyString else String c EmptyString
       | r' => String c r'
       end).
    by rewrite IH.
Qed.

(** Trimming a trimmed string changes nothing. *)
Lemma strip_idemp (s : string) : strip (strip s) = strip s.
Proof.
  unfold strip.
  destruct (lstrip_head s) as [->|(c & t & -> & Hc)]; [done|].
  destruct (rstrip_head c t Hc) as [r Hr]. rewrite Hr at 1. simpl lstrip.
  rewrite Hc, <- Hr. apply rstrip_idemp.
Qed.

(** ** filter_headings *)

Lemma filter_headings_loop_passes text_counter labeled_lines :
  filter_headings_loop text_counter labeled_lines
  = heading_of <$> filter (passes text_counter) labeled_lines.
Proof.
  unfold filter_headings_loop.
  match goal with
  | |- foldl ?body [] _ = _ =>
      enough (∀ acc, foldl body acc labeled_lines
                     = acc ++ (heading_of <$> filter (passes text_counter) labeled_lines))
        as H by apply (H [])
  end.
  induction labeled_lines as [|line lines IH]; intros acc.
  { by rewrite app_nil_r. }
  cbn [foldl]. rewrite IH, filter_cons. clear IH.
  destruct (decide (passes text_counter line)) as [(H1 & H2 & H3)|Hn].
  - apply Nat.ltb_ge in H1. apply Nat.ltb_ge in H2. apply Qc_ltb_ge in H3.
    rewrite H1, H2, H3. csimpl. by rewrite <- app_assoc.
  - destruct (120 <? _)%nat eqn:H1; [done|].
    destruct (2 <? _)%nat eqn:H2; [done|].
    destruct (Qc_ltb _ _) eqn:H3; [done|].
    destruct Hn. apply Nat.ltb_ge in H1. apply Nat.ltb_ge in H2.
    apply Qc_ltb_ge in H3. done.
Qed.

(** What the code retains: the count looked up for a fragment is the
    number of fragments whose untrimmed text is its trimmed text. *)
Lemma filter_headings_survivors labeled_lines :
  filter_headings labeled_lines = heading_of <$> survivors labeled_lines.
Proof. apply filter_headings_loop_passes. Qed.

Lemma passes_Counter labeled_lines line :
  passes (Counter (raw_texts labeled_lines)) line ↔
    (String.length (strip (text (frag line))) ≤ 120)%nat
    ∧ (occurrences (strip (text (frag line))) (raw_texts labeled_lines) ≤ 2)%nat
    ∧ y0 (frag line) ≤ Q2Qc 750.
Proof. unfold passes. by rewrite Counter_get. Qed.

Lemma filter_ext_Forall {A} (P Q : A → Prop) `{∀ x, Decision (P x), ∀ x, Decision (Q x)}
    (l : list A) :
  Forall (λ x, P x ↔ Q x) l → filter P l = filter Q l.
Proof.
  induction 1 as [|x l Hx _ IH]; [done|].
  rewrite !filter_cons, IH.
  destruct (decide (P x)), (decide (Q x)); tauto.
Qed.


(** A trimmed text is counted at least as often among the trimmed texts
    as among the untrimmed ones. *)
Lemma occurrences_raw_le_trimmed labeled_lines (t : string) :
  (occurrences (strip t) (raw_texts labeled_lines)
   ≤ occurrences (strip t) (trimmed_texts labeled_lines))%nat.
Proof.
  unfold occurrences, raw_texts, trimmed_texts.
  induction labeled_lines as [|line lines IH]; csimpl; [done|].
  rewrite !filter_cons.
  destruct (decide (text (frag line) = strip t)) as [E|_].
  - rewrite decide_True by (by rewrite E, strip_idemp). simpl. lia.
  - destruct (decide (strip (text (frag line)) = strip t)); simpl; lia.
Qed.

(** On fragments whose texts are already trimmed, as both extractors
    deliver them, the code is the filter of the specification. *)
Lemma filter_headings_spec_trimmed labeled_lines :
  Forall (λ line, strip (text (frag line)) = text (frag line)) labeled_lines →
  filter_headings labeled_lines = filter_headings_spec labeled_lines.
Proof.
  intros Htrim. rewrite filter_headings_survivors.
  unfold survivors, filter_headings_spec. f_equal.
  assert (trimmed_texts labeled_lines = raw_texts labeled_lines) as Heq.
  { unfold trimmed_texts, raw_texts.
    induction Htrim as [|line lines Hl _ IH]; csimpl; [done|]. by rewrite Hl, IH. }
  apply filter_ext_Forall, Forall_forall. intros line _.
  rewrite passes_Counter. unfold retained_by_spec. by rewrite Heq.
Qed.

(** In general the code only errs by keeping too much: what the
    specification retains, the code retains. *)
Lemma retained_by_spec_passes labeled_lines line :
  retained_by_spec labeled_lines line →
  passes (Counter (raw_texts labeled_lines)) line.
Proof.
  rewrite passes_Counter. intros (H1 & H2 & H3). split_and!; [done | | done].
  etransitivity; [apply occurrences_raw_le_trimmed | done].
Qed.

(** *** A second pass over the retained fragments *)

Lemma occurrences_filter_le {A K} `{EqDecision K} (f : A → K)
    (P : A → Prop) `{∀ x, Decision (P x)} (l : list A) (k : K) :
  (occurrences k (f <$> filter P l) ≤ occurrences k (f <$> l))%nat.
Proof.
  unfold occurrences. induction l as [|x l IH]; csimpl; [done|].
  rewrite (filter_cons P). destruct (decide (P x)); csimpl.
  - rewrite !(filter_cons (λ y, y = k)). destruct (decide (f x = k)); simpl; lia.
  - rewrite (filter_cons (λ y, y = k)). destruct (decide (f x = k)); simpl; lia.
Qed.




Section dyn_refinement.
Lemma getitem_of_labeled_text line :
  Dyn.getitem (Dyn.of_labeled line) "text" = Ok (Dyn.VStr (text (frag line))).
Proof. unfold Dyn.getitem, Dyn.of_labeled. by simplify_map_eq. Qed.

Lemma getitem_of_labeled_y0 line :
  Dyn.getitem (Dyn.of_labeled line) "y0" = Ok (Dyn.VFloat (y0 (frag line))).
Proof. unfold Dyn.getitem, Dyn.of_labeled. by simplify_map_eq. Qed.

Lemma getitem_of_labeled_level line :
  Dyn.getitem (Dyn.of_labeled line) "level" = Ok (Dyn.VStr (level line)).
Proof. unfold Dyn.getitem, Dyn.of_labeled. by simplify_map_eq. Qed.

Lemma getitem_of_labeled_page line :
  Dyn.getitem (Dyn.of_labeled line) "page" = Ok (Dyn.VInt (page (frag line))).
Proof. unfold Dyn.getitem, Dyn.of_labeled. by simplify_map_eq. Qed.

Lemma mapM_text_of_labeled labeled_lines :
  mapM (λ line, Dyn.getitem line "text") (Dyn.of_labeled <$> labeled_lines)
  = Ok (Dyn.VStr <$> raw_texts labeled_lines).
Proof.
  induction labeled_lines as [|line lines IH]; [done|].
  rewrite fmap_cons.
  change (mapM (λ line, Dyn.getitem line "text") (Dyn.of_labeled line :: (Dyn.of_labeled <$> lines)))
    with (y ← Dyn.getitem (Dyn.of_labeled line) "text";
          k ← mapM (λ line, Dyn.getitem line "text") (Dyn.of_labeled <$> lines);
          mret (y :: k)).
  by rewrite getitem_of_labeled_text, result_bind_Ok, IH.
Qed.

Lemma occurrences_VStr (t : string) (ts : list string) :
  occurrences (Dyn.VStr t) (Dyn.VStr <$> ts) = occurrences t ts.
Proof.
  unfold occurrences. induction ts as [|s ts IH]; csimpl; [done|].
  rewrite !filter_cons.
  destruct (decide (s = t)) as [->|Hne].
  - rewrite decide_True by done. simpl. by rewrite IH.
  - rewrite decide_False by congruence. done.
Qed.

(** On the dicts of labelled fragments the untyped function returns,
    and returns the dicts of the headings of the typed one. *)
Lemma filter_headings_refines (labeled_lines : list LabeledFragment) :
  Dyn.filter_headings (Dyn.of_labeled <$> labeled_lines)
  = Ok (Dyn.of_heading <$> filter_headings labeled_lines).
Proof.
  unfold Dyn.filter_headings. rewrite mapM_text_of_labeled, result_bind_Ok.
  rewrite filter_headings_survivors. unfold survivors.
  set (c := Counter (raw_texts labeled_lines)).
  set (c' := Counter (Dyn.VStr <$> raw_texts labeled_lines)).
  assert (∀ t, counter_get c' (Dyn.VStr t) = counter_get c t) as Hc.
  { intros t. unfold c, c'. by rewrite !Counter_get, occurrences_VStr. }
  clearbody c c'.
  match goal with
  | |- foldl ?body (Ok []) _ = _ =>
      enough (∀ acc, foldl body (Ok acc) (Dyn.of_labeled <$> labeled_lines)
                     = Ok (acc ++ (Dyn.of_heading <$> (heading_of <$> filter (passes c) labeled_lines))))
        as H by apply (H [])
  end.
  induction labeled_lines as [|line lines IH]; intros acc.
  { by rewrite app_nil_r. }
  rewrite fmap_cons. cbn [foldl].
  rewrite result_bind_Ok, getitem_of_labeled_text, result_bind_Ok.
  unfold Dyn.str_strip. rewrite result_bind_Ok, Hc, filter_cons.
  destruct (decide (passes c line)) as [(H1 & H2 & H3)|Hn].
  - apply Nat.ltb_ge in H1. apply Nat.ltb_ge in H2. apply Qc_ltb_ge in H3.
    rewrite H1, H2, getitem_of_labeled_y0, result_bind_Ok.
    unfold Dyn.gt_750. rewrite result_bind_Ok, H3.
    rewrite getitem_of_labeled_level, result_bind_Ok.
    rewrite getitem_of_labeled_page, result_bind_Ok.
    rewrite IH, !fmap_cons, <- app_assoc. done.
  - destruct (120 <? _)%nat eqn:H1; [apply IH|].
    destruct (2 <? _)%nat eqn:H2; [apply IH|].
    rewrite getitem_of_labeled_y0, result_bind_Ok.
    unfold Dyn.gt_750. rewrite result_bind_Ok.
    destruct (Qc_ltb _ _) eqn:H3; [apply IH|].
    destruct Hn. apply Nat.ltb_ge in H1. apply Nat.ltb_ge in H2.
    apply Qc_ltb_ge in H3. done.
Qed.
(** The copy keeps the three values and nothing else. *)
Lemma heading_entry_fields (heading entry : gmap string Dyn.value) :
  Dyn.heading_entry heading = Ok entry →
  entry !! "level" = heading !! "level"
  ∧ entry !! "text" = heading !! "text"
  ∧ entry !! "page" = heading !! "page"
  ∧ dom entry = {[ "level"; "text"; "page" ]}.
Proof.
  unfold Dyn.heading_entry, Dyn.getitem.
  destruct (heading !! "level") as [lv|]; [|done]. rewrite result_bind_Ok.
  destruct (heading !! "text") as [tx|]; [|done]. rewrite result_bind_Ok.
  destruct (heading !! "page") as [pg|]; [|done]. rewrite result_bind_Ok.
  intros [= <-]. split_and!; by simplify_map_eq.
Qed.

Lemma heading_entry_of_heading (h : Heading) :
  Dyn.heading_entry (Dyn.of_heading h) = Ok (Dyn.of_heading h).
Proof.
  unfold Dyn.heading_entry, Dyn.getitem, Dyn.of_heading. by simplify_map_eq.
Qed.

(** On the dicts of headings the untyped assembler returns the dicts of
    the typed one. *)
Lemma build_outline_json_refines (t : string) (headings : list Heading) :
  Dyn.build_outline_json t (Dyn.of_heading <$> headings)
  = Ok (title (build_outline_json t headings),
        Dyn.of_heading <$> outline (build_outline_json t headings)).
Proof.
  unfold Dyn.build_outline_json.
  assert (mapM Dyn.heading_entry (Dyn.of_heading <$> headings)
          = Ok (Dyn.of_heading <$> outline (build_outline_json t headings))) as ->; [|done].
  unfold build_outline_json. simpl outline.
  induction headings as [|[lv tx pg] headings IH]; [done|].
  rewrite !fmap_cons.
  change (mapM Dyn.heading_entry (?x :: ?l))
    with (y ← Dyn.heading_entry x; k ← mapM Dyn.heading_entry l; mret (y :: k)).
  by rewrite heading_entry_of_heading, result_bind_Ok, IH.
Qed.
End dyn_refinement.

(** ** Running [process_pdf] *)

Lemma M_bind_run {A B} (m : M A) (k : A → M B) (w : World) :
  (m ≫= k) w = match m w with
               | (w', Ok a) => k a w'
               | (w', Raise e) => (w', Raise e)
               end.
Proof. reflexivity. Qed.

Lemma print_run (msg : Msg) (w : World) : print msg w = (say w [msg], Ok ()).
Proof. reflexivity. Qed.

Lemma say_say (w : World) (l1 l2 : list Msg) : say (say w l1) l2 = say w (l1 ++ l2).
Proof. unfold say. simpl. by rewrite app_assoc. Qed.

Lemma load_pdf_Ok env file_path doc w :
  fitz_open env file_path = Ok doc → load_pdf env file_path w = (w, Ok doc).
Proof. intros E. unfold load_pdf, try_except, lift. by rewrite E. Qed.

(** One step of a run: a [print] followed by the rest. *)
Ltac run_step := rewrite M_bind_run, print_run; cbv beta iota.

(** With a title in the metadata, the title stage returns it. *)
Lemma resolve_title_metadata doc blocks w t :
  get_title_from_metadata doc = Some t →
  resolve_title doc blocks w = (say w [MsgTitleFromMetadata t], Ok t).
Proof.
  intros E. unfold resolve_title. rewrite E.
  unfold get_title_from_metadata in E.
  destruct (decide (strip _ = EmptyString)) as [|Hne]; [done|].
  injection E as <-. by rewrite decide_False.
Qed.

(** On a non-empty block list the title stage returns. *)
Lemma resolve_title_Ok doc blocks w :
  blocks ≠ [] →
  ∃ t msg, resolve_title doc blocks w = (say w [msg], Ok t) ∧ is_error msg = false.
Proof.
  intros Hne.
  destruct (infer_title_from_lines_Ok blocks None Hne) as [s Hs].
  assert ((title ← lift (infer_title_from_lines blocks None);
           _ ← print (MsgTitleInferred title); mret title) w
          = (say w [MsgTitleInferred s], Ok s)) as Hinfer.
  { rewrite M_bind_run. unfold lift. by rewrite Hs. }
  unfold resolve_title.
  destruct (get_title_from_metadata doc) as [t|] eqn:E.
  - destruct (decide (t = EmptyString)).
    + rewrite Hinfer. by eexists _, _.
    + by eexists _, _.
  - rewrite Hinfer. by eexists _, _.
Qed.

(** C6. Title resolution is metadata-first: when the metadata title is
    non-empty after trimming, the trimmed value is the title, whatever
    the fragments are (the inference is not run, so even a fragment list
    on which it would raise gives the title).  With the metadata title
    "Report 2024" the title is "Report 2024" for every fragment list. *)
Theorem title_metadata_first (doc : Document) (blocks : list Fragment)
    (w : World) (t : string) :
  metadata doc !! "title" = Some t →
  strip t ≠ EmptyString →
  get_title_from_metadata doc = Some (strip t)
  ∧ resolve_title doc blocks w = (say w [MsgTitleFromMetadata (strip t)], Ok (strip t))
  ∧ (t = "Report 2024" → (resolve_title doc blocks w).2 = Ok "Report 2024").
Proof.
  intros Hmeta Hne.
  assert (get_title_from_metadata doc = Some (strip t)) as Hget.
  { unfold get_title_from_metadata. rewrite Hmeta. simpl.
    by rewrite decide_False. }
  split_and!; [done | by apply resolve_title_metadata |].
  intros ->. by rewrite (resolve_title_metadata _ _ _ _ Hget).
Qed.

(** [process_pdf] never raises: every exception of its body is caught. *)
Lemma process_pdf_returns env file_path output_dir w :
  (process_pdf env file_path output_dir w).2 = Ok ().
Proof.
  unfold process_pdf. cbv zeta. rewrite M_bind_run, print_run.
  unfold try_except at 1.
  match goal with |- (match ?b with _ => _ end).2 = _ => destruct b as [w' [[]|e]] end;
    done.
Qed.

(** C9. Each empty-content condition (no block extracted, an empty font
    map, no fragment labelled, every heading filtered out) makes
    [process_pdf] return normally with no file written and no error
    reported: the messages printed end with a skip message and none of
    them is an error message. *)
Theorem process_pdf_skips_empty_content (env : Env) (file_path output_dir : string)
    (doc : Document) (w : World) :
  fitz_open env file_path = Ok doc →
  let blocks := extract_blocks doc in
  let font_level_map := rank_font_sizes blocks in
  let labeled_blocks := assign_heading_levels blocks font_level_map in
  blocks = [] ∨ font_level_map = ∅ ∨ labeled_blocks = []
    ∨ filter_headings labeled_blocks = [] →
  ∃ msgs skip,
    process_pdf env file_path output_dir w = (say w (msgs ++ [skip]), Ok ())
    ∧ files (process_pdf env file_path output_dir w).1 = files w
    ∧ is_skip skip = true
    ∧ Forall (λ msg, is_error msg = false) (msgs ++ [skip]).
Proof.
  intros Hopen blocks font_level_map labeled_blocks Hempty.
  enough (∃ msgs skip,
            process_pdf env file_path output_dir w = (say w (msgs ++ [skip]), Ok ())
            ∧ is_skip skip = true
            ∧ Forall (λ msg, is_error msg = false) (msgs ++ [skip]))
    as (msgs & skip & Hrun & Hskip & Hmsgs).
  { exists msgs, skip. by rewrite Hrun. }
  unfold process_pdf. cbv zeta. run_step.
  unfold try_except at 1.
  rewrite M_bind_run, (load_pdf_Ok _ _ _ _ Hopen). cbv beta iota.
  do 2 run_step. fold blocks.
  destruct (decide (blocks = [])) as [|Hb].
  { rewrite print_run, !say_say.
    exists [MsgStarting (basename env file_path); MsgLoaded;
            MsgExtracted (length blocks)], MsgNoBlocks.
    split_and!; [done | done | by repeat constructor]. }
  fold font_level_map. run_step.
  destruct (decide (font_level_map = ∅)) as [|Hm].
  { rewrite print_run, !say_say.
    exists [MsgStarting (basename env file_path); MsgLoaded;
            MsgExtracted (length blocks); MsgFontMap font_level_map],
           MsgCouldNotRank.
    split_and!; [done | done | by repeat constructor]. }
  fold labeled_blocks. run_step.
  destruct (decide (labeled_blocks = [])) as [|Hl].
  { rewrite print_run, !say_say.
    exists [MsgStarting (basename env file_path); MsgLoaded;
            MsgExtracted (length blocks); MsgFontMap font_level_map;
            MsgAssigned (length labeled_blocks)], MsgNoHeadings.
    split_and!; [done | done | by repeat constructor]. }
  destruct Hempty as [?|[?|[?|Hf]]]; try done.
  rewrite M_bind_run.
  edestruct (resolve_title_Ok doc blocks) as (t & msg & -> & Hmsg); [done|].
  cbv beta iota. run_step.
  rewrite decide_True by done.
  rewrite print_run, !say_say.
  exists [MsgStarting (basename env file_path); MsgLoaded;
          MsgExtracted (length blocks); MsgFontMap font_level_map;
          MsgAssigned (length labeled_blocks); msg;
          MsgRetained (length (filter_headings labeled_blocks))],
         MsgAllFilteredOut.
  split_and!; [done | done | by repeat constructor].
Qed.

(** ** What the extractor guarantees *)

Lemma block_fragment_trimmed page_num block f :
  block_fragment page_num block = Some f → strip (text f) = text f.
Proof.
  unfold block_fragment. intros Hf.
  destruct (block_lines block) as [lines|]; [|done]. simpl in Hf.
  destruct (head _) as [first_span|]; [|done]. simpl in Hf.
  injection Hf as <-. simpl. apply strip_idemp.
Qed.

Lemma block_fragment_fields page_num block f :
  block_fragment page_num block = Some f →
  round2 (font_size f) = font_size f ∧ page f = page_num.
Proof.
  unfold block_fragment. intros Hf.
  destruct (block_lines block) as [lines|]; [|done]. simpl in Hf.
  destruct (head _) as [first_span|]; [|done]. simpl in Hf.
  injection Hf as <-. simpl. split; [apply round2_idemp | done].
Qed.

Lemma elem_of_extract_blocks doc f :
  f ∈ extract_blocks doc →
  ∃ i blocks block, pages doc !! i = Some blocks ∧ block ∈ blocks
                    ∧ block_fragment (Z.of_nat (S i)) block = Some f.
Proof.
  unfold extract_blocks. intros (l & Hf & Hl)%list_elem_of_join.
  apply elem_of_lookup_imap_1 in Hl as (i & blocks & -> & Hi).
  apply list_elem_of_omap in Hf as (block & Hb & Hbf).
  by exists i, blocks, block.
Qed.

(** The blocks come with trimmed texts, rounded sizes and pages from 1. *)
Lemma extract_blocks_contract doc :
  Forall (λ f, strip (text f) = text f
               ∧ round2 (font_size f) = font_size f
               ∧ (1 ≤ page f)%Z)
         (extract_blocks doc).
Proof.
  apply Forall_forall. intros f (i & blocks & block & _ & _ & Hf)%elem_of_extract_blocks.
  split_and!.
  - by eapply block_fragment_trimmed.
  - by eapply block_fragment_fields.
  - apply block_fragment_fields in Hf as [_ ->]. lia.
Qed.

(** Inside [process_pdf] the labelled blocks have trimmed texts, so there
    the filter is the filter of the specification. *)
Lemma filter_headings_spec_pipeline doc m :
  filter_headings (assign_heading_levels (extract_blocks doc) m)
  = filter_headings_spec (assign_heading_levels (extract_blocks doc) m).
Proof.
  apply filter_headings_spec_trimmed.
  pose proof (assign_heading_levels_labels (extract_blocks doc) m) as Hlab.
  assert (Forall (λ f, strip (text f) = text f)
                 (filter (λ line, is_Some (m !! round2 (font_size line)))
                         (extract_blocks doc))) as Hk.
  { apply Forall_forall. intros f [_ Hf]%list_elem_of_filter.
    pose proof (extract_blocks_contract doc) as Hc.
    eapply Forall_forall in Hc; [|exact Hf]. tauto. }
  induction Hlab as [|o i out kept Ho _ IH]; [constructor|].
  apply Forall_cons in Hk as [Hi Hk]. constructor; [|by apply IH].
  destruct Ho as (-> & _). done.
Qed.

(** * Checks on the sample inputs *)

(** The title example of the specification. *)
Example infer_title_example :
  infer_title_from_lines title_example (Some (Q2Qc (5952 # 10))) = Ok "Intro"
  ∧ infer_title_from_lines title_example None = Ok "Intro".
Proof. vm_compute. done. Qed.

(** The end-to-end scenario: the three "Section" lines are dropped as
    boilerplate, the title comes from the metadata. *)
Example process_pdf_report :
  files (process_pdf (sample_env report) "app/input/report.pdf" "app/output"
                     empty_world).1
  = {[ "app/output/report.json" :=
         {| title := "Report 2024";
            outline :=
              [ {| h_level := "H1"; h_text := "Title Page"; h_page := 1 |};
                {| h_level := "H3"; h_text := "Some body text"; h_page := 1 |};
                {| h_level := "H3"; h_text := "More body text"; h_page := 2 |} ] |} ]}.
Proof. vm_compute. reflexivity. Qed.

(** C2 (code bug). On a header repeated three times with a leading blank,
    the trimmed text occurs three times, so the filter of the
    specification drops every occurrence; the code counts the untrimmed
    texts, looks the trimmed text up, finds no occurrence and keeps all
    three. *)
Theorem filter_headings_padded_header :
  filter_headings padded_header
  = [ {| h_level := "H2"; h_text := "Page"; h_page := 1 |};
      {| h_level := "H2"; h_text := "Page"; h_page := 2 |};
      {| h_level := "H2"; h_text := "Page"; h_page := 3 |} ]
  ∧ filter_headings_spec padded_header = []
  ∧ occurrences "Page" (trimmed_texts padded_header) = 3%nat
  ∧ counter_get (Counter (raw_texts padded_header)) "Page" = 0%nat.
Proof. vm_compute. done. Qed.


(** * Instances of the theorems with hypotheses *)

Lemma rank_font_sizes_three_levels_witness :
  (3 ≤ length (remove_dups (rounded_sizes three_sizes)))%nat
  ∧ size (rank_font_sizes three_sizes) = 3%nat.
Proof.
  assert (3 ≤ length (remove_dups (rounded_sizes three_sizes)))%nat as H
    by (vm_compute; lia).
  split; [exact H|].
  exact (proj1 (proj2 rank_font_sizes_three_levels three_sizes H)).
Defined.

Lemma rank_font_sizes_order_independent_witness :
  rounded_sizes three_sizes ≡ₚ rounded_sizes three_sizes_permuted
  ∧ rank_font_sizes three_sizes = rank_font_sizes three_sizes_permuted.
Proof.
  assert (rounded_sizes three_sizes ≡ₚ rounded_sizes three_sizes_permuted) as H.
  { apply rounded_sizes_Permutation. unfold three_sizes, three_sizes_permuted.
    eapply perm_trans; [apply perm_skip, perm_swap | apply perm_swap]. }
  split; [exact H|].
  exact (rank_font_sizes_order_independent three_sizes three_sizes_permuted H).
Defined.


Lemma assign_heading_levels_subsequence_witness :
  Forall (λ line, round2 (font_size line) = font_size line) three_sizes
  ∧ frag <$> assign_heading_levels three_sizes (rank_font_sizes three_sizes)
    = filter (λ line, is_Some (rank_font_sizes three_sizes !! round2 (font_size line)))
             three_sizes.
Proof.
  assert (Forall (λ line, round2 (font_size line) = font_size line) three_sizes) as H.
  { repeat constructor; apply Qc_is_canon; vm_compute; reflexivity. }
  split; [exact H|].
  destruct (proj2 (assign_heading_levels_subsequence three_sizes)
                  (rank_font_sizes three_sizes)) as (_ & _ & _ & Hsub).
  exact (Hsub H).
Defined.

Lemma title_metadata_first_witness :
  metadata report !! "title" = Some " Report 2024 "
  ∧ strip " Report 2024 " ≠ EmptyString
  ∧ (resolve_title report [] empty_world).2 = Ok (strip " Report 2024 ").
Proof.
  assert (metadata report !! "title" = Some " Report 2024 ") as H1
    by (vm_compute; reflexivity).
  assert (strip " Report 2024 " ≠ EmptyString) as H2
    by (vm_compute; discriminate).
  split_and!; [exact H1 | exact H2 |].
  destruct (title_metadata_first report [] empty_world _ H1 H2) as (_ & -> & _).
  reflexivity.
Defined.

Lemma process_pdf_skips_empty_content_witness :
  fitz_open (sample_env footer_only) "app/input/footer.pdf" = Ok footer_only
  ∧ filter_headings
      (assign_heading_levels (extract_blocks footer_only)
                             (rank_font_sizes (extract_blocks footer_only))) = []
  ∧ files (process_pdf (sample_env footer_only) "app/input/footer.pdf" "app/output"
                       empty_world).1 = ∅.
Proof.
  assert (fitz_open (sample_env footer_only) "app/input/footer.pdf" = Ok footer_only)
    as H1 by reflexivity.
  assert (filter_headings
            (assign_heading_levels (extract_blocks footer_only)
                                   (rank_font_sizes (extract_blocks footer_only))) = [])
    as H2 by (vm_compute; reflexivity).
  split_and!; [exact H1 | exact H2 |].
  destruct (process_pdf_skips_empty_content (sample_env footer_only)
              "app/input/footer.pdf" "app/output" footer_only empty_world H1
              (or_intror (or_intror (or_intror H2))))
    as (_ & _ & _ & Hfiles & _).
  exact Hfiles.
Defined.

Lemma infer_title_from_lines_empty_raises_witness :
  title_example ≠ []
  ∧ ∃ s, infer_title_from_lines title_example None = Ok s.
Proof.
  assert (title_example ≠ []) as H by discriminate.
  split; [exact H|].
  destruct (infer_title_from_lines_empty_raises None)
    as (_ & _ & _ & _ & Hiff).
  exact (proj2 (Hiff title_example) H).
Defined.

(** * Further properties of the module *)

(** ** rank_font_sizes and assign_heading_levels *)

Lemma sizes_descending_elem lines k :
  k ∈ sizes_descending lines ↔ k ∈ rounded_sizes lines.
Proof.
  unfold sizes_descending.
  by rewrite sorted_desc_Permutation, Counter_keys_elem.
Qed.

(** The entries of the map: the [i]-th largest distinct size has the
    [i]-th level. *)
Lemma rank_font_sizes_lookup lines k lv :
  rank_font_sizes lines !! k = Some lv ↔
    ∃ i, sizes_descending lines !! i = Some k ∧ heading_levels !! i = Some lv.
Proof.
  pose proof (sizes_descending_strict lines) as Hs.
  rewrite rank_font_sizes_sizes_descending.
  destruct (sizes_descending lines) as [|a [|b [|c rest]]].
  - change (foldl _ _ _) with (∅ : gmap Qc string).
    rewrite lookup_empty. split; [done|]. by intros (i & ? & _).
  - change (foldl _ _ _) with (<[a := "H1"]> (∅ : gmap Qc string)).
    rewrite lookup_insert_Some, lookup_empty. split.
    + intros [[-> <-]|[_ ?]]; [by exists 0%nat | done].
    + intros ([|[|i]] & Hk & Hlv); simplify_eq/=; by left.
  - change (foldl _ _ _)
      with (<[b := "H2"]> (<[a := "H1"]> (∅ : gmap Qc string))).
    apply StronglySorted_inv in Hs as [_ [Hba _]%Forall_cons].
    assert (a ≠ b) by (intros ->; by apply Qclt_not_eq in Hba).
    rewrite !lookup_insert_Some, lookup_empty. split.
    + intros [[-> <-]|[_ [[-> <-]|[_ ?]]]];
        [by exists 1%nat | by exists 0%nat | done].
    + intros ([|[|[|i]]] & Hk & Hlv); simplify_eq/=; naive_solver.
  - change (foldl _ _ _)
      with (<[c := "H3"]> (<[b := "H2"]> (<[a := "H1"]> (∅ : gmap Qc string)))).
    apply StronglySorted_inv in Hs as [Hs Ha].
    apply StronglySorted_inv in Hs as [_ Hb].
    apply Forall_cons in Ha as [Hba Ha]. apply Forall_cons in Ha as [Hca _].
    apply Forall_cons in Hb as [Hcb _].
    assert (a ≠ b) by (intros ->; by apply Qclt_not_eq in Hba).
    assert (a ≠ c) by (intros ->; by apply Qclt_not_eq in Hca).
    assert (b ≠ c) by (intros ->; by apply Qclt_not_eq in Hcb).
    rewrite !lookup_insert_Some, lookup_empty. split.
    + intros [[-> <-]|[_ [[-> <-]|[_ [[-> <-]|[_ ?]]]]]];
        [by exists 2%nat | by exists 1%nat | by exists 0%nat | done].
    + intros ([|[|[|i]]] & Hk & Hlv); simplify_eq/=; naive_solver.
Qed.

(** In a strictly descending list a later position holds a smaller value. *)
Lemma strictly_descending_lookup (l : list Qc) (i j : nat) (x y : Qc) :
  StronglySorted (λ x y, y < x) l →
  l !! i = Some x → l !! j = Some y → (i < j)%nat → y < x.
Proof.
  intros Hs. revert i j. induction Hs as [|z l Hs IH Hz]; intros i j Hi Hj Hij.
  { by rewrite lookup_nil in Hi. }
  destruct j as [|j]; [lia|]. destruct i as [|i]; simpl in *.
  - simplify_eq. eapply Forall_forall in Hz; [done|].
    by eapply list_elem_of_lookup_2.
  - eapply IH; [done | done | lia].
Qed.

Lemma heading_levels_lookup_inj (i j : nat) (lv : string) :
  heading_levels !! i = Some lv → heading_levels !! j = Some lv → i = j.
Proof.
  destruct i as [|[|[|i]]], j as [|[|[|j]]]; simpl; intros; by simplify_eq.
Qed.

(** X1. The map of [rank_font_sizes] has one entry per distinct rounded
    size, up to three; its keys are rounded sizes of the input and its
    values are among H1, H2, H3. *)
Theorem rank_font_sizes_entries (lines : list Fragment) :
  size (rank_font_sizes lines)
    = (3 `min` length (remove_dups (rounded_sizes lines)))%nat
  ∧ (size (rank_font_sizes lines) ≤ 3)%nat
  ∧ map_Forall (λ k lv, k ∈ rounded_sizes lines ∧ lv ∈ heading_levels)
               (rank_font_sizes lines).
Proof.
  split_and!.
  - apply rank_font_sizes_size.
  - rewrite rank_font_sizes_size. lia.
  - intros k lv (i & Hk & Hlv)%rank_font_sizes_lookup. split.
    + apply sizes_descending_elem. by eapply list_elem_of_lookup_2.
    + by eapply list_elem_of_lookup_2.
Qed.

(** X2. Levels follow the sizes: of two entries of the map, the one with
    the larger size has the earlier level in H1, H2, H3; so distinct
    sizes never share a level. *)
Theorem rank_font_sizes_levels_ordered (lines : list Fragment)
    (k1 k2 : Qc) (lv1 lv2 : string) :
  rank_font_sizes lines !! k1 = Some lv1 →
  rank_font_sizes lines !! k2 = Some lv2 →
  ∃ i1 i2 : nat,
    heading_levels !! i1 = Some lv1 ∧ heading_levels !! i2 = Some lv2
    ∧ (k2 < k1 ↔ (i1 < i2)%nat)
    ∧ (k1 = k2 ↔ lv1 = lv2).
Proof.
  intros (i1 & Hk1 & Hl1)%rank_font_sizes_lookup
         (i2 & Hk2 & Hl2)%rank_font_sizes_lookup.
  pose proof (sizes_descending_strict lines) as Hs.
  exists i1, i2. split_and!; [done | done | |].
  - split.
    + intros Hlt. destruct (lt_eq_lt_dec i1 i2) as [[?| ->]|Hgt]; [done | |].
      * simplify_eq. by apply Qclt_not_eq in Hlt.
      * pose proof (strictly_descending_lookup _ _ _ _ _ Hs Hk2 Hk1 Hgt) as Hlt'.
        destruct (Qclt_not_le _ _ Hlt). by apply Qclt_le_weak.
    + by apply (strictly_descending_lookup _ _ _ _ _ Hs Hk1 Hk2).
  - split.
    + intros ->.
      destruct (lt_eq_lt_dec i1 i2) as [[Hlt| ->]|Hgt]; [| by simplify_eq |].
      * pose proof (strictly_descending_lookup _ _ _ _ _ Hs Hk1 Hk2 Hlt) as Hc.
        by apply Qclt_not_eq in Hc.
      * pose proof (strictly_descending_lookup _ _ _ _ _ Hs Hk2 Hk1 Hgt) as Hc.
        by apply Qclt_not_eq in Hc.
    + intros ->. rewrite (heading_levels_lookup_inj _ _ _ Hl1 Hl2) in Hk1.
      by simplify_eq.
Qed.

(** X3. The keys of the map are the largest sizes: a rounded size of the
    input that is not a key is below every key, and the size mapped to H1
    is the largest rounded size of the input. *)
Theorem rank_font_sizes_keeps_largest (lines : list Fragment) (k : Qc) (lv : string) :
  rank_font_sizes lines !! k = Some lv →
  Forall (λ s, rank_font_sizes lines !! s = None → s < k) (rounded_sizes lines)
  ∧ (lv = "H1" → Forall (λ s, s ≤ k) (rounded_sizes lines)).
Proof.
  intros (i & Hk & Hlv)%rank_font_sizes_lookup.
  pose proof (sizes_descending_strict lines) as Hs.
  split.
  - apply Forall_forall. intros s Hin Hnone.
    apply sizes_descending_elem, list_elem_of_lookup_1 in Hin as [j Hj].
    destruct (decide (j < 3)%nat) as [Hj3|Hj3].
    + assert (is_Some (rank_font_sizes lines !! s)) as [? Hsome]; [|congruence].
      destruct (heading_levels !! j) as [lv'|] eqn:E.
      * exists lv'. apply rank_font_sizes_lookup. by exists j.
      * apply lookup_ge_None in E. simpl in E. lia.
    + apply lookup_lt_Some in Hlv. simpl in Hlv.
      eapply (strictly_descending_lookup _ i j); [done | done | done | lia].
  - intros ->. destruct i as [|[|[|i]]]; simplify_eq/=.
    apply Forall_forall. intros s Hin.
    apply sizes_descending_elem, list_elem_of_lookup_1 in Hin as [j Hj].
    destruct j as [|j].
    + simplify_eq. apply Qcle_refl.
    + apply Qclt_le_weak.
      eapply (strictly_descending_lookup _ 0 (S j)); [done | done | done | lia].
Qed.

(** X4. After the check for an empty block list, the two next checks of
    [process_pdf] cannot fire: on a non-empty fragment list the map is not
    empty, and labelling with it gives a non-empty list with an H1. *)
Theorem rank_then_assign_nonempty (blocks : list Fragment) :
  blocks ≠ [] →
  rank_font_sizes blocks ≠ ∅
  ∧ assign_heading_levels blocks (rank_font_sizes blocks) ≠ []
  ∧ Exists (λ o, level o = "H1")
           (assign_heading_levels blocks (rank_font_sizes blocks)).
Proof.
  intros Hne. destruct (rank_assign_nonempty blocks Hne) as [Hm Hl].
  split_and!; [done | done |].
  apply rank_font_sizes_largest in Hne as (line & Hline & Hlv).
  rewrite assign_heading_levels_omap. apply Exists_exists.
  eexists. split.
  - apply list_elem_of_omap. exists line. split; [done|].
    unfold label_line. rewrite Hlv. done.
  - done.
Qed.

Lemma rank_font_sizes_inj lines k1 k2 lv :
  rank_font_sizes lines !! k1 = Some lv →
  rank_font_sizes lines !! k2 = Some lv → k1 = k2.
Proof.
  intros (i1 & Hk1 & Hl1)%rank_font_sizes_lookup
         (i2 & Hk2 & Hl2)%rank_font_sizes_lookup.
  rewrite (heading_levels_lookup_inj _ _ _ Hl1 Hl2) in Hk1. by simplify_eq.
Qed.

Lemma rank_font_sizes_H1_max lines k s :
  rank_font_sizes lines !! k = Some "H1" → s ∈ rounded_sizes lines → s ≤ k.
Proof.
  intros (i & Hk & Hlv)%rank_font_sizes_lookup Hin.
  pose proof (sizes_descending_strict lines) as Hs.
  destruct i as [|[|[|i]]]; simplify_eq/=.
  apply sizes_descending_elem, list_elem_of_lookup_1 in Hin as [j Hj].
  destruct j as [|j].
  - simplify_eq. apply Qcle_refl.
  - apply Qclt_le_weak.
    eapply (strictly_descending_lookup _ 0 (S j)); [done | done | done | lia].
Qed.

Lemma elem_of_assign_heading_levels lines m o :
  o ∈ assign_heading_levels lines m ↔
    ∃ line, line ∈ lines ∧ label_line m line = Some o.
Proof. rewrite assign_heading_levels_omap. apply list_elem_of_omap. Qed.

Lemma label_line_Some m line o :
  label_line m line = Some o →
  font_size (frag o) = round2 (font_size line)
  ∧ m !! font_size (frag o) = Some (level o)
  ∧ text (frag o) = text line ∧ y0 (frag o) = y0 line ∧ page (frag o) = page line.
Proof.
  unfold label_line. destruct (m !! round2 (font_size line)) as [lv|] eqn:E; [|done].
  intros [= <-]. simpl. by rewrite E.
Qed.

(** X5. Labelling with the map ranked from the same fragments: every
    level is one of H1, H2, H3; an H1 heading carries the largest rounded
    size of the document; two labelled fragments have the same level
    exactly when they have the same size. *)
Theorem assign_with_ranked_map (lines : list Fragment) (o1 o2 : LabeledFragment) :
  o1 ∈ assign_heading_levels lines (rank_font_sizes lines) →
  o2 ∈ assign_heading_levels lines (rank_font_sizes lines) →
  level o1 ∈ heading_levels
  ∧ (level o1 = "H1" →
     Forall (λ line, round2 (font_size line) ≤ font_size (frag o1)) lines)
  ∧ (level o1 = level o2 ↔ font_size (frag o1) = font_size (frag o2)).
Proof.
  intros (l1 & Hl1 & (Hf1 & Hm1 & _)%label_line_Some)%elem_of_assign_heading_levels
         (l2 & Hl2 & (Hf2 & Hm2 & _)%label_line_Some)%elem_of_assign_heading_levels.
  split_and!.
  - apply rank_font_sizes_lookup in Hm1 as (i & _ & Hi).
    by eapply list_elem_of_lookup_2.
  - intros E. rewrite E in Hm1. apply Forall_forall. intros line Hline.
    eapply rank_font_sizes_H1_max; [done|].
    unfold rounded_sizes. by apply (list_elem_of_fmap_2 (λ l, round2 (font_size l))).
  - split.
    + intros E. rewrite E in Hm1. by eapply rank_font_sizes_inj.
    + intros E. rewrite E in Hm1. congruence.
Qed.

(** ** extract_blocks and extract_lines *)

Lemma strip_nonempty_head (s : string) :
  strip s ≠ EmptyString → ∃ c r, strip s = String c r ∧ is_space c = false.
Proof.
  unfold strip. intros Hne.
  destruct (lstrip_head s) as [E|(c & t & E & Hc)]; rewrite E in *; [done|].
  destruct (rstrip_head c t Hc) as [r Hr]. by exists c, r.
Qed.

Lemma strip_head_nonspace (c : ascii) (r : string) :
  is_space c = false → strip (String c r) ≠ EmptyString.
Proof.
  intros Hc. unfold strip. simpl lstrip. rewrite Hc.
  by destruct (rstrip_head c r Hc) as [r' ->].
Qed.

Lemma concat_head (sep : string) (c : ascii) (r : string) (l : list string) :
  ∃ r', String.concat sep (String c r :: l) = String c r'.
Proof. destruct l; simpl; by eexists. Qed.

(** Joining stripped, non-empty span texts gives a text that is not
    empty, also after stripping. *)
Lemma joined_text_nonempty (spans : list Span) (first_span : Span) :
  head (filter (λ s, strip (span_text s) ≠ EmptyString) spans) = Some first_span →
  let joined :=
    String.concat " " ((λ span, strip (span_text span))
                         <$> filter (λ s, strip (span_text s) ≠ EmptyString) spans) in
  joined ≠ EmptyString ∧ strip joined ≠ EmptyString.
Proof.
  intros Hhead. apply head_Some in Hhead as [rest Hrest]. rewrite Hrest.
  assert (strip (span_text first_span) ≠ EmptyString) as Hne.
  { assert (first_span ∈ filter (λ s, strip (span_text s) ≠ EmptyString) spans) as Hin
      by (rewrite Hrest; by left).
    by apply list_elem_of_filter in Hin as [? _]. }
  destruct (strip_nonempty_head _ Hne) as (c & r & E & Hc).
  rewrite fmap_cons, E. destruct (concat_head " " c r ((λ span, strip (span_text span)) <$> rest)) as [r' ->].
  split; [done | by apply strip_head_nonspace].
Qed.

Lemma block_fragment_Some page_num block f :
  block_fragment page_num block = Some f →
  text f ≠ EmptyString ∧ strip (text f) = text f
  ∧ round2 (font_size f) = font_size f ∧ page f = page_num.
Proof.
  intros Hf. split_and!; try by eapply block_fragment_fields.
  - unfold block_fragment in Hf.
    destruct (block_lines block) as [lines|]; [|done]. simpl in Hf.
    destruct (head _) as [first_span|] eqn:Hhead; [|done]. simpl in Hf.
    injection Hf as <-. simpl. by apply (joined_text_nonempty _ _ Hhead).
  - by eapply block_fragment_trimmed.
Qed.

Lemma line_fragment_Some page_num spans f :
  line_fragment page_num spans = Some f →
  text f ≠ EmptyString ∧ strip (text f) = text f
  ∧ round2 (font_size f) = font_size f ∧ page f = page_num.
Proof.
  unfold line_fragment. intros Hf.
  destruct (head _) as [first_span|] eqn:Hhead; [|done]. simpl in Hf.
  destruct (decide _) as [|_]; [done|]. injection Hf as <-. simpl.
  split_and!; [by apply (joined_text_nonempty _ _ Hhead) | apply strip_idemp
              | apply round2_idemp | done].
Qed.

(** A line is a block with that one line. *)
Lemma line_fragment_block page_num spans :
  line_fragment page_num spans
  = block_fragment page_num {| block_lines := Some [spans] |}.
Proof.
  unfold line_fragment, block_fragment. simpl. rewrite app_nil_r.
  destruct (head _) as [first_span|] eqn:Hhead; [|done]. simpl.
  destruct (joined_text_nonempty _ _ Hhead) as [Hne _].
  rewrite decide_False by done. by rewrite length_fmap.
Qed.

Lemma constant_pages_sorted (l : list Fragment) (n : Z) :
  Forall (λ f, page f = n) l → StronglySorted Z.le (page <$> l).
Proof.
  induction 1 as [|f l Hf Hl IH]; csimpl; constructor; [done|].
  apply Forall_fmap. eapply Forall_impl; [exact Hl|]. simpl. intros; lia.
Qed.

(** Fragments collected page by page come in page order. *)
Lemma pages_sorted {A} (g : nat → A → list Fragment) (l : list A) (base : nat) :
  (∀ i x f, l !! i = Some x → f ∈ g i x → page f = Z.of_nat (base + i)) →
  StronglySorted Z.le (page <$> mjoin (imap g l))
  ∧ Forall (λ f, (Z.of_nat base ≤ page f < Z.of_nat (base + length l))%Z)
           (mjoin (imap g l)).
Proof.
  revert g base. induction l as [|x l IH]; intros g base Hg.
  { split; constructor. }
  rewrite imap_cons. change (mjoin (g 0%nat x :: ?ls)) with (g 0%nat x ++ mjoin ls).
  destruct (IH (g ∘ S) (S base)) as [Hs Hb].
  { intros i y f Hy Hf. rewrite (Hg (S i) y f Hy Hf). f_equal. lia. }
  assert (Forall (λ f, page f = Z.of_nat base) (g 0%nat x)) as H0.
  { apply Forall_forall. intros f Hf. rewrite (Hg 0%nat x f eq_refl Hf). f_equal. lia. }
  split.
  - rewrite fmap_app. apply StronglySorted_app_2.
    + intros p1 p2 (f1 & -> & Hf1)%list_elem_of_fmap (f2 & -> & Hf2)%list_elem_of_fmap.
      eapply Forall_forall in H0; [|exact Hf1].
      eapply Forall_forall in Hb; [|exact Hf2]. lia.
    + by eapply constant_pages_sorted.
    + done.
  - apply Forall_app. split.
    + eapply Forall_impl; [exact H0|]. simpl. intros f ->. lia.
    + eapply Forall_impl; [exact Hb|]. simpl. intros f ?. lia.
Qed.

(** X6. The contract of [extract_blocks]: every fragment has a text that
    is not empty and already trimmed, a font size already rounded to two
    decimals and a page number between 1 and the number of pages; the
    fragments come in page order. *)
Theorem extract_blocks_output (doc : Document) :
  Forall (λ f, text f ≠ EmptyString ∧ strip (text f) = text f
               ∧ round2 (font_size f) = font_size f
               ∧ (1 ≤ page f ≤ Z.of_nat (length (pages doc)))%Z)
         (extract_blocks doc)
  ∧ StronglySorted Z.le (page <$> extract_blocks doc).
Proof.
  destruct (pages_sorted
              (λ i blocks, omap (block_fragment (Z.of_nat (S i))) blocks)
              (pages doc) 1) as [Hs Hb].
  { intros i blocks f _ (block & _ & Hf)%list_elem_of_omap.
    apply block_fragment_Some in Hf as (_ & _ & _ & ->). done. }
  split; [|exact Hs].
  apply Forall_forall. intros f Hf.
  eapply Forall_forall in Hb; [|exact Hf].
  apply elem_of_extract_blocks in Hf as (i & blocks & block & _ & _ & Hfrag).
  apply block_fragment_Some in Hfrag as (? & ? & ? & _).
  split_and!; [done | done | done | lia | lia].
Qed.

Lemma elem_of_extract_lines doc f :
  f ∈ extract_lines doc →
  ∃ i spans, line_fragment (Z.of_nat (S i)) spans = Some f.
Proof.
  unfold extract_lines. intros (l & Hf & Hl)%list_elem_of_join.
  apply elem_of_lookup_imap_1 in Hl as (i & blocks & -> & Hi).
  apply list_elem_of_join in Hf as (l' & Hf & Hl').
  apply list_elem_of_fmap in Hl' as (block & -> & _).
  apply list_elem_of_omap in Hf as (spans & _ & Hfrag).
  by exists i, spans.
Qed.

(** X7. The contract of [extract_lines] is the one of [extract_blocks]:
    texts not empty and trimmed, sizes rounded, pages between 1 and the
    number of pages, fragments in page order. *)
Theorem extract_lines_output (doc : Document) :
  Forall (λ f, text f ≠ EmptyString ∧ strip (text f) = text f
               ∧ round2 (font_size f) = font_size f
               ∧ (1 ≤ page f ≤ Z.of_nat (length (pages doc)))%Z)
         (extract_lines doc)
  ∧ StronglySorted Z.le (page <$> extract_lines doc).
Proof.
  destruct (pages_sorted
              (λ i blocks,
                 mjoin ((λ block,
                           omap (line_fragment (Z.of_nat (S i)))
                                (default [] (block_lines block))) <$> blocks))
              (pages doc) 1) as [Hs Hb].
  { intros i blocks f _ (l' & Hf & Hl')%list_elem_of_join.
    apply list_elem_of_fmap in Hl' as (block & -> & _).
    apply list_elem_of_omap in Hf as (spans & _ & Hfrag).
    apply line_fragment_Some in Hfrag as (_ & _ & _ & ->). done. }
  split; [|exact Hs].
  apply Forall_forall. intros f Hf.
  eapply Forall_forall in Hb; [|exact Hf].
  apply elem_of_extract_lines in Hf as (i & spans & Hfrag).
  apply line_fragment_Some in Hfrag as (? & ? & ? & _).
  split_and!; [done | done | done | lia | lia].
Qed.

Lemma line_fragment_is_Some page_num spans :
  filter (λ s, strip (span_text s) ≠ EmptyString) spans ≠ [] →
  is_Some (line_fragment page_num spans).
Proof.
  intros Hne. unfold line_fragment.
  destruct (head _) as [first_span|] eqn:Hhead.
  - simpl. destruct (joined_text_nonempty _ _ Hhead) as [Hj _].
    rewrite decide_False by done. by eexists.
  - apply head_None in Hhead. done.
Qed.

(** A block that gives a fragment holds a line that gives one. *)
Lemma block_lines_fragments page_num block :
  (length (option_list (block_fragment page_num block))
   ≤ length (omap (line_fragment page_num) (default [] (block_lines block))))%nat.
Proof.
  destruct (block_fragment page_num block) as [f|] eqn:Hf; simpl; [|lia].
  unfold block_fragment in Hf.
  destruct (block_lines block) as [lines|]; [|done]. simpl in *.
  destruct (head _) as [s|] eqn:Hhead; [|done]. clear Hf.
  apply head_Some_elem_of, list_elem_of_filter in Hhead as [Hclean Hs].
  apply list_elem_of_In, in_concat in Hs as (line & Hline & Hs).
  apply list_elem_of_In in Hline. apply list_elem_of_In in Hs.
  destruct (line_fragment_is_Some page_num line) as [f' Hf'].
  { intros E. assert (s ∈ filter (λ s, strip (span_text s) ≠ EmptyString) line) as Hin
      by (apply list_elem_of_filter; done).
    rewrite E in Hin. by apply elem_of_nil in Hin. }
  assert (f' ∈ omap (line_fragment page_num) lines) as Hin
    by (apply list_elem_of_omap; eauto).
  destruct (omap _ lines); [by apply elem_of_nil in Hin | simpl; lia].
Qed.

Lemma omap_option_list {A B} (f : A → option B) (l : list A) :
  omap f l = mjoin ((λ x, option_list (f x)) <$> l).
Proof.
  induction l as [|x l IH]; [done|]. csimpl. rewrite IH.
  by destruct (f x).
Qed.

Lemma length_join_le {A B} (g1 g2 : A → list B) (l : list A) :
  (∀ x, length (g1 x) ≤ length (g2 x))%nat →
  (length (mjoin (g1 <$> l)) ≤ length (mjoin (g2 <$> l)))%nat.
Proof.
  intros Hg. induction l as [|x l IH]; [done|]. csimpl.
  rewrite !length_app. specialize (Hg x). lia.
Qed.

Lemma length_join_imap_le {A B} (g1 g2 : nat → A → list B) (l : list A) :
  (∀ i x, length (g1 i x) ≤ length (g2 i x))%nat →
  (length (mjoin (imap g1 l)) ≤ length (mjoin (imap g2 l)))%nat.
Proof.
  revert g1 g2. induction l as [|x l IH]; intros g1 g2 Hg; [done|].
  rewrite !imap_cons. csimpl. rewrite !length_app.
  specialize (IH (g1 ∘ S) (g2 ∘ S) (λ i y, Hg (S i) y)).
  specialize (Hg 0%nat x). lia.
Qed.

(** X8. Lines against blocks: [extract_lines] gives at least as many
    fragments as [extract_blocks], and on a document whose blocks hold at
    most one line each the two give the same fragments. *)
Theorem extract_lines_vs_blocks (doc : Document) :
  (length (extract_blocks doc) ≤ length (extract_lines doc))%nat
  ∧ (Forall (Forall (λ block, ∀ lines, block_lines block = Some lines
                                        → (length lines ≤ 1)%nat))
            (pages doc) →
     extract_lines doc = extract_blocks doc).
Proof.
  unfold extract_lines, extract_blocks. split.
  - apply length_join_imap_le. intros i blocks.
    rewrite omap_option_list. apply length_join_le. intros block.
    apply block_lines_fragments.
  - intros Hone. f_equal. apply imap_ext. intros i blocks Hi.
    assert (Forall (λ block, ∀ lines, block_lines block = Some lines
                                      → (length lines ≤ 1)%nat) blocks) as Hb.
    { eapply Forall_forall in Hone; [done|]. by eapply list_elem_of_lookup_2. }
    clear Hone Hi. rewrite omap_option_list. f_equal.
    induction Hb as [|block blocks Hblock _ IH]; [done|].
    rewrite !fmap_cons, IH. f_equal.
    destruct block as [[[|spans [|more lines]]|]]; simpl in *.
    + done.
    + rewrite line_fragment_block. by destruct (block_fragment _ _).
    + specialize (Hblock _ eq_refl). simpl in Hblock. lia.
    + done.
Qed.

(** ** get_title_from_metadata and infer_title_from_lines *)

(** X9. [get_title_from_metadata] gives no title when the metadata has no
    title or only white space; a title it gives is the trimmed metadata
    value, is not empty and has no white space at its ends. *)
Theorem get_title_from_metadata_result (doc : Document) :
  (metadata doc !! "title" = None → get_title_from_metadata doc = None)
  ∧ (∀ raw, metadata doc !! "title" = Some raw → strip raw = EmptyString →
            get_title_from_metadata doc = None)
  ∧ (∀ t, get_title_from_metadata doc = Some t →
          t ≠ EmptyString ∧ strip t = t
          ∧ ∃ raw, metadata doc !! "title" = Some raw ∧ t = strip raw).
Proof.
  unfold get_title_from_metadata. split_and!.
  - intros ->. done.
  - intros raw -> E. simpl. by rewrite E.
  - intros t. destruct (metadata doc !! "title") as [raw|]; simpl.
    + destruct (decide (strip raw = EmptyString)); [done|].
      intros [= <-]. split_and!; [done | apply strip_idemp | by exists raw].
    + done.
Qed.

Lemma filter_nil_Forall {A} (P : A → Prop) `{∀ x, Decision (P x)} (l : list A) :
  filter P l = [] ↔ Forall (λ x, ¬ P x) l.
Proof.
  induction l as [|x l IH]; [by split; [constructor|]|].
  rewrite filter_cons, Forall_cons. destruct (decide (P x)); [|tauto].
  split; [done | tauto].
Qed.






(** ** filter_headings *)

Lemma elem_of_filter_headings labeled_lines h :
  h ∈ filter_headings labeled_lines ↔
    ∃ line, line ∈ labeled_lines ∧ h = heading_of line
            ∧ passes (Counter (raw_texts labeled_lines)) line.
Proof.
  rewrite filter_headings_survivors, list_elem_of_fmap. unfold survivors.
  split.
  - intros (line & -> & [? ?]%list_elem_of_filter). by exists line.
  - intros (line & ? & -> & ?). exists line. split; [done|].
    by apply list_elem_of_filter.
Qed.

(** X12. What [filter_headings] lets through: every heading comes from a
    labelled fragment of the input, with its level and page and its text
    trimmed; the text has at most 120 characters and no white space at its
    ends, it is the untrimmed text of at most two fragments, and the
    fragment lies at [y0] 750 or above it.  The output is never longer
    than the input. *)
Theorem filter_headings_output (labeled_lines : list LabeledFragment) :
  (length (filter_headings labeled_lines) ≤ length labeled_lines)%nat
  ∧ Forall (λ h, (String.length (h_text h) ≤ 120)%nat
                 ∧ strip (h_text h) = h_text h
                 ∧ (occurrences (h_text h) (raw_texts labeled_lines) ≤ 2)%nat
                 ∧ ∃ line, line ∈ labeled_lines
                           ∧ h_level h = level line
                           ∧ h_text h = strip (text (frag line))
                           ∧ h_page h = page (frag line)
                           ∧ y0 (frag line) ≤ Q2Qc 750)
           (filter_headings labeled_lines).
Proof.
  split.
  - rewrite filter_headings_survivors, length_fmap. apply length_filter.
  - apply Forall_forall.
    intros h (line & Hline & -> & Hp)%elem_of_filter_headings.
    apply passes_Counter in Hp as (H1 & H2 & H3). simpl.
    split_and!; [done | apply strip_idemp | done |].
    by exists line.
Qed.

Lemma occurrences_not_elem {K} `{EqDecision K} (k : K) (l : list K) :
  k ∉ l → occurrences k l = 0%nat.
Proof.
  intros Hk. unfold occurrences.
  assert (filter (λ x, x = k) l = []) as ->; [|done].
  apply filter_nil_Forall, Forall_forall. by intros x Hx ->.
Qed.

Lemma filter_headings_trimmed_twice (labeled_lines : list LabeledFragment)
    (t : string) :
  Forall (λ line, strip (text (frag line)) = text (frag line)) labeled_lines →
  (occurrences t (h_text <$> filter_headings labeled_lines) ≤ 2)%nat.
Proof.
  intros Htrim. rewrite filter_headings_survivors.
  assert (h_text <$> (heading_of <$> survivors labeled_lines)
          = raw_texts (survivors labeled_lines)) as ->.
  { unfold raw_texts. rewrite <- list_fmap_compose.
    apply list_fmap_ext. intros i line Hline%list_elem_of_lookup_2. simpl.
    unfold survivors in Hline. apply list_elem_of_filter in Hline as [_ Hline].
    by eapply Forall_forall in Htrim. }
  destruct (decide (t ∈ raw_texts (survivors labeled_lines))) as [Hin|Hout].
  - unfold raw_texts in Hin. apply list_elem_of_fmap in Hin as (line & -> & Hline).
    unfold survivors in Hline. apply list_elem_of_filter in Hline as [Hp Hline].
    apply passes_Counter in Hp as (_ & H2 & _).
    eapply Forall_forall in Htrim; [|exact Hline]. rewrite Htrim in H2.
    etransitivity; [|exact H2].
    unfold survivors, raw_texts. apply occurrences_filter_le.
  - rewrite occurrences_not_elem by done. lia.
Qed.


(** ** The functions on untyped dicts *)

Lemma mapM_cons_result {A B} (f : A → result B) (x : A) (l : list A) :
  mapM f (x :: l) = (y ← f x; k ← mapM f l; mret (y :: k)).
Proof. reflexivity. Qed.

Lemma getitem_Some (d : gmap string Dyn.value) (k : string) (v : Dyn.value) :
  d !! k = Some v → Dyn.getitem d k = Ok v.
Proof. unfold Dyn.getitem. by intros ->. Qed.

Lemma getitem_None (d : gmap string Dyn.value) (k : string) :
  d !! k = None → Dyn.getitem d k = Raise (KeyError k).
Proof. unfold Dyn.getitem. by intros ->. Qed.

Lemma mapM_text_missing (lines : list (gmap string Dyn.value)) :
  Exists (λ line, line !! "text" = None) lines →
  mapM (λ line, Dyn.getitem line "text") lines = Raise (KeyError "text").
Proof.
  induction 1 as [line lines Hline|line lines _ IH];
    rewrite mapM_cons_result; cbv beta.
  - by rewrite (getitem_None _ _ Hline).
  - destruct (line !! "text") as [v|] eqn:E.
    + by rewrite (getitem_Some _ _ _ E), result_bind_Ok, IH.
    + by rewrite (getitem_None _ _ E).
Qed.

Lemma mapM_text_present (lines : list (gmap string Dyn.value)) :
  Forall (λ line, is_Some (line !! "text")) lines →
  ∃ texts, mapM (λ line, Dyn.getitem line "text") lines = Ok texts.
Proof.
  induction 1 as [|line lines [v Hv] _ [texts IH]]; [by eexists|].
  rewrite mapM_cons_result. cbv beta.
  rewrite (getitem_Some _ _ _ Hv), result_bind_Ok, IH. by eexists.
Qed.

(** X14. Exceptions of [filter_headings] on dicts.  A dict without the
    ["text"] key makes the call raise [KeyError] for that key, whatever
    the other dicts hold, because the counter is built first.  The tests
    run in order: when every text is a string too long to be a heading,
    the result is the empty list and ["y0"], ["level"] and ["page"] are
    never read. *)
Theorem filter_headings_key_errors (lines : list (gmap string Dyn.value)) :
  (Exists (λ line, line !! "text" = None) lines →
   Dyn.filter_headings lines = Raise (KeyError "text"))
  ∧ (Forall (λ line, ∃ s, line !! "text" = Some (Dyn.VStr s)
                          ∧ (120 < String.length (strip s))%nat) lines →
     Dyn.filter_headings lines = Ok []).
Proof.
  split.
  - intros Hex. unfold Dyn.filter_headings. by rewrite mapM_text_missing.
  - intros Hlong. unfold Dyn.filter_headings.
    destruct (mapM_text_present lines) as [texts ->].
    { eapply Forall_impl; [exact Hlong|]. simpl. intros line (s & -> & _). by eexists. }
    rewrite result_bind_Ok. generalize (Counter texts). intros c.
    match goal with
    | |- foldl ?body (Ok []) _ = _ =>
        enough (∀ acc, foldl body (Ok acc) lines = Ok acc) as H by apply (H [])
    end.
    induction Hlong as [|line lines (s & Hs & Hlen) _ IH]; intros acc; [done|].
    cbn [foldl]. rewrite result_bind_Ok, (getitem_Some _ _ _ Hs), result_bind_Ok.
    unfold Dyn.str_strip. rewrite result_bind_Ok.
    apply Nat.ltb_lt in Hlen. rewrite Hlen. apply IH.
Qed.

(** X15. On the dicts of labelled fragments (the seven keys, with strings
    for text, font name and level, floats for the sizes and positions and
    an integer page) [filter_headings] raises nothing; it returns the
    dicts of the headings retained, each with the three keys level, text
    and page only. *)
Theorem filter_headings_on_fragment_dicts (labeled_lines : list LabeledFragment) :
  Dyn.filter_headings (Dyn.of_labeled <$> labeled_lines)
  = Ok (Dyn.of_heading <$> filter_headings labeled_lines)
  ∧ Forall (λ d : gmap string Dyn.value, dom d = {[ "level"; "text"; "page" ]})
           (Dyn.of_heading <$> filter_headings labeled_lines).
Proof.
  split; [apply filter_headings_refines|].
  apply Forall_fmap, Forall_forall. intros h _. simpl.
  unfold Dyn.of_heading.
  rewrite ?dom_insert_L, ?dom_singleton_L, ?dom_empty_L. set_solver.
Qed.

(** X16. [build_outline_json] on dicts: when every heading has the keys
    level, text and page, the title is passed on and each outline entry
    holds these three values and no other key, in the order of the input;
    a heading that lacks one of the keys makes the call raise [KeyError]
    for one of them. *)
Theorem build_outline_json_on_dicts (t : string)
    (headings : list (gmap string Dyn.value)) :
  (Forall (λ h, is_Some (h !! "level") ∧ is_Some (h !! "text")
                ∧ is_Some (h !! "page")) headings →
   ∃ entries, Dyn.build_outline_json t headings = Ok (t, entries)
              ∧ Forall2 (λ e h : gmap string Dyn.value,
                           e !! "level" = h !! "level"
                           ∧ e !! "text" = h !! "text"
                           ∧ e !! "page" = h !! "page"
                           ∧ dom e = {[ "level"; "text"; "page" ]})
                        entries headings)
  ∧ (Exists (λ h, h !! "level" = None ∨ h !! "text" = None
                  ∨ h !! "page" = None) headings →
     ∃ k, Dyn.build_outline_json t headings = Raise (KeyError k)
          ∧ k ∈ ["level"; "text"; "page"]).
Proof.
  unfold Dyn.build_outline_json. split.
  - intros Hall.
    enough (∃ entries, mapM Dyn.heading_entry headings = Ok entries
                       ∧ Forall2 (λ e h : gmap string Dyn.value,
                                    e !! "level" = h !! "level"
                                    ∧ e !! "text" = h !! "text"
                                    ∧ e !! "page" = h !! "page"
                                    ∧ dom e = {[ "level"; "text"; "page" ]})
                                 entries headings)
      as (entries & -> & ?) by (by exists entries).
    induction Hall as [|h headings ([lv Hlv] & [tx Htx] & [pg Hpg]) _ (entries & IH & ?)].
    { exists []. by split; [|constructor]. }
    assert (∃ e, Dyn.heading_entry h = Ok e) as [e He].
    { unfold Dyn.heading_entry, Dyn.getitem. rewrite Hlv, Htx, Hpg. by eexists. }
    exists (e :: entries). rewrite mapM_cons_result, He, result_bind_Ok, IH.
    split; [done|]. constructor; [by apply heading_entry_fields | done].
  - intros Hex.
    enough (∃ k, mapM Dyn.heading_entry headings = Raise (KeyError k)
                 ∧ k ∈ ["level"; "text"; "page"])
      as (k & -> & ?) by (by exists k).
    induction Hex as [h headings Hh|h headings _ (k & IH & Hk)];
      rewrite mapM_cons_result.
    + unfold Dyn.heading_entry, Dyn.getitem.
      destruct (h !! "level"); [|exists "level"; split; [done | set_solver]].
      rewrite result_bind_Ok.
      destruct (h !! "text"); [|exists "text"; split; [done | set_solver]].
      rewrite result_bind_Ok.
      destruct (h !! "page"); [|exists "page"; split; [done | set_solver]].
      naive_solver.
    + destruct (Dyn.heading_entry h) as [e|err] eqn:He.
      * rewrite result_bind_Ok, IH. by exists k.
      * unfold Dyn.heading_entry, Dyn.getitem in He.
        destruct (h !! "level"); [|injection He as <-; exists "level"; split; [done | set_solver]].
        rewrite result_bind_Ok in He.
        destruct (h !! "text"); [|injection He as <-; exists "text"; split; [done | set_solver]].
        rewrite result_bind_Ok in He.
        destruct (h !! "page"); [|injection He as <-; exists "page"; split; [done | set_solver]].
        done.
Qed.

(** ** process_pdf *)

Lemma load_pdf_Raise env file_path e w :
  fitz_open env file_path = Raise e →
  load_pdf env file_path w = (w, Raise RuntimeError).
Proof. intros E. unfold load_pdf, try_except, lift. by rewrite E. Qed.

Lemma resolve_title_run doc blocks :
  blocks ≠ [] →
  ∃ t msg, (∀ w, resolve_title doc blocks w = (say w [msg], Ok t))
           ∧ is_error msg = false ∧ is_skip msg = false
           ∧ title_resolved doc blocks t.
Proof.
  intros Hne. unfold title_resolved.
  destruct (get_title_from_metadata doc) as [t|] eqn:E.
  - exists t, (MsgTitleFromMetadata t). split_and!; try done; [|by left].
    intros w. by rewrite (resolve_title_metadata _ _ _ _ E).
  - destruct (infer_title_from_lines_Ok blocks None Hne) as [s Hs].
    exists s, (MsgTitleInferred s). split_and!; try done; [|by right].
    intros w. unfold resolve_title. rewrite E, M_bind_run. unfold lift. by rewrite Hs.
Qed.

Lemma clean_headings_blocks doc :
  clean_headings_of doc ≠ [] → extract_blocks doc ≠ [].
Proof. unfold clean_headings_of. intros Hc E. by rewrite E in Hc. Qed.

(** Every run of [process_pdf]. *)
Lemma process_pdf_run env file_path output_dir w :
  let name := basename env file_path in
  let path := output_path env file_path output_dir in
  match fitz_open env file_path with
  | Raise _ =>
      process_pdf env file_path output_dir w
      = (say w [MsgStarting name; MsgError name RuntimeError], Ok ())
  | Ok doc =>
      if decide (clean_headings_of doc = [])
      then ∃ msgs skip,
             process_pdf env file_path output_dir w
             = (say w (MsgStarting name :: msgs ++ [skip]), Ok ())
             ∧ is_skip skip = true
             ∧ Forall (λ msg, is_error msg = false) msgs
      else ∃ t msgs,
             title_resolved doc (extract_blocks doc) t
             ∧ Forall (λ msg, is_error msg = false ∧ is_skip msg = false) msgs
             ∧ if can_write env file_path output_dir
               then process_pdf env file_path output_dir w
                    = ({| files := <[path := build_outline_json t (clean_headings_of doc)]>
                                     (files w);
                          stdout := stdout w ++ MsgStarting name :: msgs
                                    ++ [MsgSaved path] |}, Ok ())
               else process_pdf env file_path output_dir w
                    = (say w (MsgStarting name :: msgs ++ [MsgError name OSError]), Ok ())
  end.
Proof.
  intros name path.
  destruct (fitz_open env file_path) as [doc|e] eqn:Hopen.
  2:{ unfold process_pdf. cbv zeta. run_step. unfold try_except at 1.
      rewrite M_bind_run, (load_pdf_Raise _ _ _ _ Hopen). cbv beta iota.
      by rewrite print_run, say_say. }
  unfold clean_headings_of.
  set (blocks := extract_blocks doc).
  set (m := rank_font_sizes blocks).
  set (labeled := assign_heading_levels blocks m).
  destruct (decide (filter_headings labeled = [])) as [Hc|Hc].
  - unfold process_pdf. cbv zeta. run_step. unfold try_except at 1.
    rewrite M_bind_run, (load_pdf_Ok _ _ _ _ Hopen). cbv beta iota.
    do 2 run_step. fold blocks name.
    destruct (decide (blocks = [])) as [Hb|Hb].
    { rewrite print_run, !say_say.
      exists [MsgLoaded; MsgExtracted (length blocks)], MsgNoBlocks.
      split_and!; [done | done | by repeat constructor]. }
    destruct (rank_assign_nonempty blocks Hb) as [Hm Hl].
    fold m. run_step. rewrite decide_False by done.
    fold labeled. run_step. rewrite decide_False by done.
    destruct (resolve_title_run doc blocks Hb) as (t & msg & Hrun & Hmsg & _ & _).
    rewrite M_bind_run, Hrun. cbv beta iota. run_step.
    rewrite decide_True by done. rewrite print_run, !say_say.
    exists [MsgLoaded; MsgExtracted (length blocks); MsgFontMap m;
            MsgAssigned (length labeled); msg;
            MsgRetained (length (filter_headings labeled))], MsgAllFilteredOut.
    split_and!; [done | done | by repeat constructor].
  - assert (blocks ≠ []) as Hb by (intros E; subst labeled; by rewrite E in Hc).
    destruct (rank_assign_nonempty blocks Hb) as [Hm Hl].
    destruct (resolve_title_run doc blocks Hb) as (t & msg & Hrun & Hmsg & Hmsg' & Ht).
    exists t, [MsgLoaded; MsgExtracted (length blocks); MsgFontMap m;
               MsgAssigned (length labeled); msg;
               MsgRetained (length (filter_headings labeled))].
    split_and!; [done | by repeat constructor |].
    subst path. unfold can_write, output_path. fold name.
    set (path := path_join env output_dir (splitext_root env name +:+ ".json")).
    destruct (makedirs_ok env output_dir) eqn:Hmk1; simpl andb;
      [destruct (makedirs_ok env (dirname env path)) eqn:Hmk2; simpl andb;
       [destruct (open_ok env path) eqn:Hop|]|];
    unfold process_pdf; cbv zeta; run_step; unfold try_except at 1;
    rewrite M_bind_run, (load_pdf_Ok _ _ _ _ Hopen); cbv beta iota;
    do 2 run_step; fold blocks name; rewrite decide_False by done;
    fold m; run_step; rewrite decide_False by done;
    fold labeled; run_step; rewrite decide_False by done;
    rewrite M_bind_run, Hrun; cbv beta iota; run_step;
    rewrite decide_False by done;
    fold path;
    rewrite M_bind_run; unfold makedirs at 1; rewrite Hmk1.
    + unfold mret, M_ret. cbv beta iota.
      rewrite M_bind_run. unfold write_output_json. rewrite M_bind_run.
      unfold makedirs. rewrite Hmk2.
      unfold mret, M_ret. cbv beta iota.
      unfold dump_file. rewrite Hop. cbv beta iota.
      rewrite print_run. unfold say. simpl. by rewrite <- !app_assoc.
    + unfold mret, M_ret. cbv beta iota.
      rewrite M_bind_run. unfold write_output_json. rewrite M_bind_run.
      unfold makedirs. rewrite Hmk2.
      unfold mret, M_ret. cbv beta iota.
      unfold dump_file. rewrite Hop. unfold lift.
      by rewrite print_run, !say_say.
    + unfold mret, M_ret. cbv beta iota.
      rewrite M_bind_run. unfold write_output_json. rewrite M_bind_run.
      unfold makedirs. rewrite Hmk2. unfold lift.
      by rewrite print_run, !say_say.
    + unfold lift. by rewrite print_run, !say_say.
Qed.

(** X17. A document that cannot be opened: whatever [fitz.open] raises,
    [process_pdf] reports a [RuntimeError] for the file, writes nothing
    and returns normally. *)
Theorem process_pdf_load_failure (env : Env) (file_path output_dir : string)
    (w : World) (e : exn) :
  fitz_open env file_path = Raise e →
  process_pdf env file_path output_dir w
  = ({| files := files w;
        stdout := stdout w ++ [MsgStarting (basename env file_path);
                               MsgError (basename env file_path) RuntimeError] |},
     Ok ()).
Proof.
  intros Hopen. pose proof (process_pdf_run env file_path output_dir w) as Hrun.
  simpl in Hrun. by rewrite Hopen in Hrun.
Qed.

(** X18. A document with headings, when the directories can be made and
    the file opened: [process_pdf] writes one file, at
    [join(output_dir, splitext(basename(file_path))[0] + ".json")]; it
    holds the title of the metadata, or else the inferred one, and the
    filtered headings.  No other file changes, no error is printed and the
    last message names the saved path. *)
Theorem process_pdf_writes_outline (env : Env) (file_path output_dir : string)
    (doc : Document) (w : World) :
  fitz_open env file_path = Ok doc →
  clean_headings_of doc ≠ [] →
  can_write env file_path output_dir = true →
  ∃ (t : string) (msgs : list Msg),
    title_resolved doc (extract_blocks doc) t
    ∧ Forall (λ msg, is_error msg = false ∧ is_skip msg = false) msgs
    ∧ process_pdf env file_path output_dir w
      = ({| files :=
              <[path_join env output_dir
                          (splitext_root env (basename env file_path) +:+ ".json")
                := build_outline_json t (clean_headings_of doc)]> (files w);
            stdout :=
              stdout w ++ msgs
              ++ [MsgSaved (path_join env output_dir
                              (splitext_root env (basename env file_path) +:+ ".json"))] |},
         Ok ()).
Proof.
  intros Hopen Hc Hw. pose proof (process_pdf_run env file_path output_dir w) as Hrun.
  simpl in Hrun. rewrite Hopen, decide_False, Hw in Hrun by done.
  destruct Hrun as (t & msgs & Ht & Hmsgs & Hrun).
  exists t, (MsgStarting (basename env file_path) :: msgs).
  split_and!; [done | by constructor | done].
Qed.

(** X19. A document with headings, when a directory cannot be made or the
    file cannot be opened: [process_pdf] writes nothing, reports an
    [OSError] for the file as its last message and returns normally. *)
Theorem process_pdf_write_failure (env : Env) (file_path output_dir : string)
    (doc : Document) (w : World) :
  fitz_open env file_path = Ok doc →
  clean_headings_of doc ≠ [] →
  can_write env file_path output_dir = false →
  ∃ msgs : list Msg,
    Forall (λ msg, is_error msg = false) msgs
    ∧ process_pdf env file_path output_dir w
      = ({| files := files w;
            stdout := stdout w ++ msgs ++ [MsgError (basename env file_path) OSError] |},
         Ok ()).
Proof.
  intros Hopen Hc Hw. pose proof (process_pdf_run env file_path output_dir w) as Hrun.
  simpl in Hrun. rewrite Hopen, decide_False, Hw in Hrun by done.
  destruct Hrun as (t & msgs & Ht & Hmsgs & Hrun).
  exists (MsgStarting (basename env file_path) :: msgs). split; [|done].
  constructor; [done|]. eapply Forall_impl; [exact Hmsgs|]. simpl. tauto.
Qed.

(** What a call of [process_pdf] does to the world. *)
Lemma process_pdf_effect env file_path output_dir w :
  ∃ msgs,
    (process_pdf env file_path output_dir w).2 = Ok ()
    ∧ stdout (process_pdf env file_path output_dir w).1
      = stdout w ++ MsgStarting (basename env file_path) :: msgs
    ∧ (files (process_pdf env file_path output_dir w).1 = files w
       ∨ ∃ o, files (process_pdf env file_path output_dir w).1
              = <[output_path env file_path output_dir := o]> (files w)).
Proof.
  pose proof (process_pdf_run env file_path output_dir w) as Hrun. simpl in Hrun.
  destruct (fitz_open env file_path) as [doc|e].
  - destruct (decide (clean_headings_of doc = [])).
    + destruct Hrun as (msgs & skip & -> & _ & _).
      eexists. split_and!; [done | done | by left].
    + destruct Hrun as (t & msgs & _ & _ & Hrun).
      destruct (can_write env file_path output_dir); rewrite Hrun.
      * eexists. split_and!; [done | done | right; by eexists].
      * eexists. split_and!; [done | done | by left].
  - rewrite Hrun. eexists. split_and!; [done | done | by left].
Qed.


Lemma StronglySorted_fmap_filter {A B} (R : relation B) (f : A → B)
    (P : A → Prop) `{∀ x, Decision (P x)} (l : list A) :
  StronglySorted R (f <$> l) → StronglySorted R (f <$> filter P l).
Proof.
  induction l as [|x l IH]; [done|]. rewrite fmap_cons.
  intros [Hs Hx]%StronglySorted_inv. rewrite filter_cons.
  destruct (decide (P x)); [|by apply IH].
  rewrite fmap_cons. constructor; [by apply IH|].
  apply Forall_fmap, Forall_forall. intros y [_ Hy]%list_elem_of_filter.
  rewrite Forall_forall in Hx. apply Hx. by apply list_elem_of_fmap_2.
Qed.

Lemma assign_pages lines m :
  (λ o, page (frag o)) <$> assign_heading_levels lines m
  = page <$> filter (λ line, is_Some (m !! round2 (font_size line))) lines.
Proof.
  pose proof (assign_heading_levels_labels lines m) as Hlab.
  induction Hlab as [|o i out kept Ho _ IH]; [done|].
  rewrite !fmap_cons, IH. f_equal. by destruct Ho as (_ & _ & _ & _ & _ & -> & _).
Qed.

(** X21. What [process_pdf] puts in an outline.  For every document, the
    headings computed from its blocks have a level among H1, H2, H3, a
    text that is not empty, has no white space at its ends and at most 120
    characters, and a page between 1 and the number of pages; no text
    occurs more than twice; the headings come in page order. *)
Theorem pipeline_headings (doc : Document) :
  Forall (λ h, h_level h ∈ heading_levels
               ∧ h_text h ≠ EmptyString
               ∧ strip (h_text h) = h_text h
               ∧ (String.length (h_text h) ≤ 120)%nat
               ∧ (1 ≤ h_page h ≤ Z.of_nat (length (pages doc)))%Z)
         (clean_headings_of doc)
  ∧ (∀ t, (occurrences t (h_text <$> clean_headings_of doc) ≤ 2)%nat)
  ∧ StronglySorted Z.le (h_page <$> clean_headings_of doc).
Proof.
  unfold clean_headings_of.
  set (blocks := extract_blocks doc). set (m := rank_font_sizes blocks).
  destruct (pages_sorted
              (λ i blocks, omap (block_fragment (Z.of_nat (S i))) blocks)
              (pages doc) 1) as [Hsorted Hrange].
  { intros i bs f _ (block & _ & Hf)%list_elem_of_omap.
    apply block_fragment_Some in Hf as (_ & _ & _ & ->). done. }
  fold (extract_blocks doc) in Hsorted, Hrange. fold blocks in Hsorted, Hrange.
  assert (∀ o, o ∈ assign_heading_levels blocks m →
               level o ∈ heading_levels
               ∧ text (frag o) ≠ EmptyString
               ∧ strip (text (frag o)) = text (frag o)
               ∧ (1 ≤ page (frag o) ≤ Z.of_nat (length (pages doc)))%Z) as Hlab.
  { intros o (f & Hf & Ho)%elem_of_assign_heading_levels.
    apply label_line_Some in Ho as (_ & Hm & -> & _ & ->).
    eapply Forall_forall in Hrange; [|exact Hf].
    apply elem_of_extract_blocks in Hf as (i & bs & block & _ & _ & Hfrag).
    apply block_fragment_Some in Hfrag as (? & ? & _ & _).
    split_and!; [|done|done|lia|lia].
    apply rank_font_sizes_lookup in Hm as (j & _ & Hj).
    by eapply list_elem_of_lookup_2. }
  split_and!.
  - apply Forall_forall. intros h (line & Hline & -> & Hp)%elem_of_filter_headings.
    destruct (Hlab line Hline) as (Hlv & Hne & Htrim & Hpage).
    destruct Hp as (Hlen & _ & _). unfold heading_of. simpl.
    rewrite Htrim in *. done.
  - intros t. apply filter_headings_trimmed_twice.
    apply Forall_forall. intros line Hline. by apply Hlab.
  - rewrite filter_headings_survivors. unfold survivors.
    rewrite <- list_fmap_compose.
    change (h_page ∘ heading_of) with (λ o : LabeledFragment, page (frag o)).
    apply StronglySorted_fmap_filter. rewrite assign_pages.
    by apply StronglySorted_fmap_filter.
Qed.

(** ** main *)

Lemma call_process_pdf_effect env file_path output_dir b :
  ∃ msgs fs,
    call_process_pdf env file_path output_dir b
    = ({| batch_files := fs;
          batch_stdout := batch_stdout b
                          ++ (inr <$> MsgStarting (basename env file_path) :: msgs) |},
       Ok ())
    ∧ (fs = batch_files b
       ∨ ∃ o, fs = <[output_path env file_path output_dir := o]> (batch_files b)).
Proof.
  destruct (process_pdf_effect env file_path output_dir
              {| files := batch_files b; stdout := [] |})
    as (msgs & Hret & Hout & Hfiles).
  unfold call_process_pdf.
  destruct (process_pdf env file_path output_dir _) as [w r].
  simpl in Hret, Hout, Hfiles. subst r. rewrite Hout.
  exists msgs, (files w). done.
Qed.

(** The loop of [main] over the PDF files. *)
Lemma main_loop_effect be input_dir output_dir pdf_files b :
  ∃ logs,
    Forall2 (λ file_name log,
               ∃ msgs, log = MsgStarting (basename (benv be)
                                            (path_join (benv be) input_dir file_name))
                             :: msgs)
            pdf_files logs
    ∧ batch_stdout (foldl (main_step be input_dir output_dir) b pdf_files)
      = batch_stdout b ++ (inr <$> mjoin logs)
    ∧ dom (batch_files b)
      ⊆ dom (batch_files (foldl (main_step be input_dir output_dir) b pdf_files))
    ∧ ∀ p, (∀ file_name, file_name ∈ pdf_files →
                         p ≠ output_path (benv be)
                               (path_join (benv be) input_dir file_name) output_dir) →
           batch_files (foldl (main_step be input_dir output_dir) b pdf_files) !! p
           = batch_files b !! p.
Proof.
  revert b. induction pdf_files as [|f fs IH]; intros b.
  { exists []. split_and!; [constructor | by rewrite app_nil_r | done | done]. }
  simpl foldl.
  destruct (call_process_pdf_effect (benv be) (path_join (benv be) input_dir f)
              output_dir b) as (msgs & files1 & Hcall & Hfiles).
  assert (main_step be input_dir output_dir b f
          = {| batch_files := files1;
               batch_stdout :=
                 batch_stdout b
                 ++ (inr <$> MsgStarting (basename (benv be)
                                            (path_join (benv be) input_dir f))
                             :: msgs) |}) as ->
    by (unfold main_step; by rewrite Hcall).
  match goal with |- context [foldl _ ?b1 fs] =>
    destruct (IH b1) as (logs & Hlogs & Hout & Hdom & Hframe) end.
  exists ((MsgStarting (basename (benv be) (path_join (benv be) input_dir f)) :: msgs)
          :: logs).
  split_and!.
  - constructor; [by exists msgs | done].
  - rewrite Hout. cbn [batch_stdout].
    change (mjoin (?x :: ?l)) with (x ++ mjoin l).
    rewrite (fmap_app inr), <- app_assoc. done.
  - cbn [batch_files] in Hdom. etrans; [|exact Hdom].
    destruct Hfiles as [->|[o ->]]; [done|]. rewrite dom_insert. set_solver.
  - cbn [batch_files] in Hframe. intros p Hp. rewrite Hframe.
    + destruct Hfiles as [->|[o ->]]; [done|].
      rewrite lookup_insert_ne; [done|]. intros Heq. eapply Hp; [|by symmetry].
      by left.
    + intros f' Hf'. apply Hp. by right.
Qed.

Lemma endswith_spec s suffix :
  endswith s suffix = true ↔ ∃ prefix, s = prefix +:+ suffix.
Proof.
  split.
  - induction s as [|c s IH]; cbn [endswith].
    + rewrite orb_false_r. intros <-%String.eqb_eq. by exists EmptyString.
    + intros [<-%String.eqb_eq | Hs]%orb_true_iff; [by exists EmptyString|].
      destruct (IH Hs) as [prefix ->]. by exists (String c prefix).
  - intros [prefix ->]. induction prefix as [|c prefix IH].
    + change (EmptyString +:+ suffix) with suffix.
      destruct suffix; cbn [endswith]; by rewrite String.eqb_refl.
    + change (String c prefix +:+ suffix) with (String c (prefix +:+ suffix)).
      cbn [endswith]. rewrite IH. apply orb_true_r.
Qed.

Lemma py_lower_app s1 s2 : py_lower (s1 +:+ s2) = py_lower s1 +:+ py_lower s2.
Proof. induction s1 as [|c s1 IH]; simpl; [done | by rewrite IH]. Qed.

Lemma py_lower_split s prefix' suffix' :
  py_lower s = prefix' +:+ suffix' →
  ∃ prefix suffix, s = prefix +:+ suffix
                   ∧ py_lower prefix = prefix' ∧ py_lower suffix = suffix'.
Proof.
  revert s. induction prefix' as [|c' prefix' IH]; intros s Hs.
  - exists EmptyString, s. done.
  - destruct s as [|c s]; [done|]. simpl in Hs. injection Hs as Hc Hs.
    destruct (IH s Hs) as (prefix & suffix & -> & <- & <-).
    exists (String c prefix), suffix. simpl. by rewrite Hc.
Qed.

Lemma lower_char_p c : lower_char c = "p"%char ↔ c = "p"%char ∨ c = "P"%char.
Proof.
  split; [|by intros [->| ->]].
  destruct c as [[] [] [] [] [] [] [] []]; vm_compute; intros ?;
    first [discriminate | by left | by right].
Qed.

Lemma lower_char_d c : lower_char c = "d"%char ↔ c = "d"%char ∨ c = "D"%char.
Proof.
  split; [|by intros [->| ->]].
  destruct c as [[] [] [] [] [] [] [] []]; vm_compute; intros ?;
    first [discriminate | by left | by right].
Qed.

Lemma lower_char_f c : lower_char c = "f"%char ↔ c = "f"%char ∨ c = "F"%char.
Proof.
  split; [|by intros [->| ->]].
  destruct c as [[] [] [] [] [] [] [] []]; vm_compute; intros ?;
    first [discriminate | by left | by right].
Qed.

Lemma lower_char_dot c : lower_char c = "."%char ↔ c = "."%char.
Proof.
  split; [|by intros ->].
  destruct c as [[] [] [] [] [] [] [] []]; vm_compute; intros ?;
    first [discriminate | done].
Qed.

(** X22. Which names [main] takes for PDF files: exactly those that end in
    a dot followed by the letters p, d, f, each in either case; what
    comes before the dot does not matter and may be empty. *)
Theorem is_pdf_name_extension (f : string) :
  is_pdf_name f = true
  ↔ ∃ stem c1 c2 c3,
      f = stem +:+ String "." (String c1 (String c2 (String c3 EmptyString)))
      ∧ c1 ∈ ["p"; "P"]%char ∧ c2 ∈ ["d"; "D"]%char ∧ c3 ∈ ["f"; "F"]%char.
Proof.
  unfold is_pdf_name. rewrite endswith_spec. split.
  - intros [prefix' (stem & ext & -> & _ & Hext)%py_lower_split].
    destruct ext as [|c0 [|c1 [|c2 [|c3 [|]]]]]; try discriminate.
    cbn [py_lower] in Hext. injection Hext as H0 H1 H2 H3.
    apply lower_char_dot in H0 as ->.
    apply lower_char_p in H1. apply lower_char_d in H2. apply lower_char_f in H3.
    exists stem, c1, c2, c3. split; [done|].
    rewrite !elem_of_cons. naive_solver.
  - intros (stem & c1 & c2 & c3 & -> & H1 & H2 & H3).
    exists (py_lower stem). rewrite py_lower_app. f_equal. cbn [py_lower].
    rewrite !elem_of_cons, elem_of_nil in H1, H2, H3.
    rewrite (proj2 (lower_char_p c1)), (proj2 (lower_char_d c2)),
      (proj2 (lower_char_f c3)) by tauto.
    done.
Qed.



(** X25. The files of a batch.  Whatever happens, [main] deletes no file,
    and the only files it can write or change are the output paths of the
    PDF names in the listing of the input directory; when the directory
    does not exist, or holds no PDF name, the files are as they were and
    [process_pdf] is never called: the two messages printed are [main]'s. *)
Theorem main_files (be : BatchEnv) (input_dir output_dir : option string) (b : Batch) :
  let input := default "app/input" input_dir in
  let output := default "app/output" output_dir in
  dom (batch_files b) ⊆ dom (batch_files (main be input_dir output_dir b).1)
  ∧ (∀ p, (∀ names file_name,
             listdir be input = Ok names → file_name ∈ names →
             is_pdf_name file_name = true →
             p ≠ output_path (benv be) (path_join (benv be) input file_name) output) →
          batch_files (main be input_dir output_dir b).1 !! p = batch_files b !! p)
  ∧ (path_exists be input = false
     ∨ (∃ names, listdir be input = Ok names
                 ∧ Forall (λ f, is_pdf_name f = false) names) →
     (main be input_dir output_dir b).2 = Ok ()
     ∧ batch_files (main be input_dir output_dir b).1 = batch_files b
     ∧ ∃ msg, batch_stdout (main be input_dir output_dir b).1
              = batch_stdout b ++ [inl (MsgLooking (abspath be input)); inl msg]
              ∧ msg ∈ [MsgInputNotFound input; MsgNoPdfFiles]).
Proof.
  intros input output. unfold main. fold input output.
  destruct (path_exists be input) eqn:Hexists; simpl negb; cbv iota.
  2:{ split_and!; [done | done |]. intros _. split_and!; [done | done |].
      eexists. split; [simpl; by rewrite <- app_assoc | by left]. }
  destruct (listdir be input) as [names|e'] eqn:Hlist.
  2:{ split_and!; [done | done |]. intros [? | (names & ? & _)]; done. }
  destruct (decide (filter (λ f, is_pdf_name f = true) names = [])) as [Hnil|Hne].
  { split_and!; [done | done |]. intros _. split_and!; [done | done |].
    eexists. split; [simpl; by rewrite <- app_assoc | right; by left]. }
  assert (¬ Forall (λ f, is_pdf_name f = false) names) as Hsome.
  { intros Hall. apply Hne. apply filter_nil_Forall.
    eapply Forall_impl; [exact Hall|]. simpl. intros f ->. done. }
  destruct (makedirs_ok (benv be) output).
  2:{ split_and!; [done | done |]. intros [? | (names' & [= <-] & ?)]; done. }
  match goal with |- context [foldl _ ?b1 ?fs] =>
    destruct (main_loop_effect be input output fs b1)
      as (logs & _ & _ & Hdom & Hframe) end.
  simpl in Hdom, Hframe |- *.
  split_and!; [done | |].
  - intros p Hp. apply Hframe. intros f [Hf Hin]%list_elem_of_filter.
    by eapply Hp.
  - intros [? | (names' & [= <-] & ?)]; done.
Qed.

(** ** Instances of the further properties *)

Lemma rank_font_sizes_levels_ordered_witness :
  rank_font_sizes three_sizes !! Q2Qc 24 = Some "H1"
  ∧ rank_font_sizes three_sizes !! Q2Qc 18 = Some "H2"
  ∧ ∃ i1 i2 : nat,
      heading_levels !! i1 = Some "H1" ∧ heading_levels !! i2 = Some "H2"
      ∧ (Q2Qc 18 < Q2Qc 24 ↔ (i1 < i2)%nat)
      ∧ (Q2Qc 24 = Q2Qc 18 ↔ "H1" = "H2").
Proof.
  assert (rank_font_sizes three_sizes !! Q2Qc 24 = Some "H1") as H1
    by (vm_compute; reflexivity).
  assert (rank_font_sizes three_sizes !! Q2Qc 18 = Some "H2") as H2
    by (vm_compute; reflexivity).
  refine (conj H1 (conj H2 _)).
  exact (rank_font_sizes_levels_ordered three_sizes _ _ _ _ H1 H2).
Defined.

Lemma rank_font_sizes_keeps_largest_witness :
  rank_font_sizes three_sizes !! Q2Qc 24 = Some "H1"
  ∧ Forall (λ s, s ≤ Q2Qc 24) (rounded_sizes three_sizes).
Proof.
  assert (rank_font_sizes three_sizes !! Q2Qc 24 = Some "H1") as H1
    by (vm_compute; reflexivity).
  refine (conj H1 _).
  exact (proj2 (rank_font_sizes_keeps_largest three_sizes _ _ H1) eq_refl).
Defined.

Lemma rank_then_assign_nonempty_witness :
  three_sizes ≠ []
  ∧ Exists (λ o, level o = "H1")
           (assign_heading_levels three_sizes (rank_font_sizes three_sizes)).
Proof.
  assert (three_sizes ≠ []) as H by discriminate.
  refine (conj H _).
  exact (proj2 (proj2 (rank_then_assign_nonempty three_sizes H))).
Defined.

Lemma assign_with_ranked_map_witness :
  title_page_labeled ∈ assign_heading_levels three_sizes (rank_font_sizes three_sizes)
  ∧ level title_page_labeled ∈ heading_levels.
Proof.
  assert (title_page_labeled
          ∈ assign_heading_levels three_sizes (rank_font_sizes three_sizes)) as H
    by (apply (bool_decide_unpack _); vm_compute; exact I).
  refine (conj H _).
  exact (proj1 (assign_with_ranked_map three_sizes _ _ H H)).
Defined.

Lemma extract_lines_vs_blocks_witness :
  Forall (Forall (λ block, ∀ lines, block_lines block = Some lines
                                     → (length lines ≤ 1)%nat))
         (pages report)
  ∧ extract_lines report = extract_blocks report.
Proof.
  assert (Forall (Forall (λ block, ∀ lines, block_lines block = Some lines
                                            → (length lines ≤ 1)%nat))
                 (pages report)) as H.
  { repeat first [apply Forall_nil_2 | apply Forall_cons_2];
      intros lines Hl; first [discriminate Hl | injection Hl as <-; simpl; lia]. }
  refine (conj H _).
  exact (proj2 (extract_lines_vs_blocks report) H).
Defined.

Lemma get_title_from_metadata_result_witness :
  metadata footer_only !! "title" = None
  ∧ get_title_from_metadata footer_only = None
  ∧ get_title_from_metadata report = Some "Report 2024"
  ∧ strip "Report 2024" = "Report 2024".
Proof.
  assert (metadata footer_only !! "title" = None) as H1 by reflexivity.
  assert (get_title_from_metadata report = Some "Report 2024") as H2
    by (vm_compute; reflexivity).
  refine (conj H1 (conj _ (conj H2 _))).
  - exact (proj1 (get_title_from_metadata_result footer_only) H1).
  - exact (proj1 (proj2 (proj2 (proj2 (get_title_from_metadata_result report))
                                 _ H2))).
Defined.




Lemma filter_headings_key_errors_witness :
  Exists (λ line : gmap string Dyn.value, line !! "text" = None) [∅]
  ∧ Dyn.filter_headings [∅] = Raise (KeyError "text")
  ∧ Dyn.filter_headings [ {[ "text" := Dyn.VStr long_text ]} ] = Ok [].
Proof.
  assert (Exists (λ line : gmap string Dyn.value, line !! "text" = None) [∅]) as H1
    by (left; reflexivity).
  assert (Forall (λ line : gmap string Dyn.value,
                    ∃ s, line !! "text" = Some (Dyn.VStr s)
                         ∧ (120 < String.length (strip s))%nat)
                 [ {[ "text" := Dyn.VStr long_text ]} ]) as H2.
  { repeat constructor. exists long_text. split; [reflexivity|]. vm_compute. lia. }
  refine (conj H1 (conj _ _)).
  - exact (proj1 (filter_headings_key_errors [∅]) H1).
  - exact (proj2 (filter_headings_key_errors _) H2).
Defined.

Lemma build_outline_json_on_dicts_witness :
  Exists (λ h : gmap string Dyn.value,
            h !! "level" = None ∨ h !! "text" = None ∨ h !! "page" = None)
         [ {[ "level" := Dyn.VStr "H1" ]} ]
  ∧ (∃ k, Dyn.build_outline_json "Report" [ {[ "level" := Dyn.VStr "H1" ]} ]
          = Raise (KeyError k)
          ∧ k ∈ ["level"; "text"; "page"])
  ∧ ∃ entries, Dyn.build_outline_json "Report" [ Dyn.of_heading scope_heading ]
               = Ok ("Report", entries).
Proof.
  assert (Exists (λ h : gmap string Dyn.value,
                    h !! "level" = None ∨ h !! "text" = None ∨ h !! "page" = None)
                 [ {[ "level" := Dyn.VStr "H1" ]} ]) as H1
    by (left; right; left; reflexivity).
  assert (Forall (λ h : gmap string Dyn.value,
                    is_Some (h !! "level") ∧ is_Some (h !! "text")
                    ∧ is_Some (h !! "page"))
                 [ Dyn.of_heading scope_heading ]) as H2.
  { repeat constructor; eexists; reflexivity. }
  refine (conj H1 (conj _ _)).
  - exact (proj2 (build_outline_json_on_dicts "Report" _) H1).
  - destruct (proj1 (build_outline_json_on_dicts "Report" _) H2)
      as (entries & Hres & _).
    exists entries. exact Hres.
Defined.

Lemma process_pdf_load_failure_witness :
  fitz_open unreadable_env "app/input/report.pdf" = Raise OSError
  ∧ files (process_pdf unreadable_env "app/input/report.pdf" "app/output"
                       empty_world).1 = ∅.
Proof.
  assert (fitz_open unreadable_env "app/input/report.pdf" = Raise OSError) as H
    by reflexivity.
  refine (conj H _).
  rewrite (process_pdf_load_failure unreadable_env "app/input/report.pdf"
             "app/output" empty_world OSError H).
  reflexivity.
Defined.

Lemma clean_headings_of_report : clean_headings_of report ≠ [].
Proof.
  intros H. apply (f_equal length) in H. vm_compute in H. discriminate.
Qed.

Lemma process_pdf_writes_outline_witness :
  fitz_open (sample_env report) "app/input/report.pdf" = Ok report
  ∧ clean_headings_of report ≠ []
  ∧ can_write (sample_env report) "app/input/report.pdf" "app/output" = true
  ∧ ∃ t, files (process_pdf (sample_env report) "app/input/report.pdf" "app/output"
                            empty_world).1
         = {[ "app/output/report.json"
              := build_outline_json t (clean_headings_of report) ]}.
Proof.
  assert (fitz_open (sample_env report) "app/input/report.pdf" = Ok report) as H1
    by reflexivity.
  assert (can_write (sample_env report) "app/input/report.pdf" "app/output" = true)
    as H3 by reflexivity.
  refine (conj H1 (conj clean_headings_of_report (conj H3 _))).
  destruct (process_pdf_writes_outline (sample_env report) "app/input/report.pdf"
              "app/output" report empty_world H1 clean_headings_of_report H3)
    as (t & msgs & _ & _ & ->).
  exists t. reflexivity.
Defined.

Lemma process_pdf_write_failure_witness :
  fitz_open (read_only_env report) "app/input/report.pdf" = Ok report
  ∧ clean_headings_of report ≠ []
  ∧ can_write (read_only_env report) "app/input/report.pdf" "app/output" = false
  ∧ files (process_pdf (read_only_env report) "app/input/report.pdf" "app/output"
                       empty_world).1 = ∅.
Proof.
  assert (fitz_open (read_only_env report) "app/input/report.pdf" = Ok report) as H1
    by reflexivity.
  assert (can_write (read_only_env report) "app/input/report.pdf" "app/output" = false)
    as H3 by reflexivity.
  refine (conj H1 (conj clean_headings_of_report (conj H3 _))).
  destruct (process_pdf_write_failure (read_only_env report) "app/input/report.pdf"
              "app/output" report empty_world H1 clean_headings_of_report H3)
    as (msgs & _ & ->).
  reflexivity.
Defined.


Lemma is_pdf_name_extension_witness :
  is_pdf_name "Report.PdF" = true.
Proof.
  apply (proj2 (is_pdf_name_extension "Report.PdF")).
  exists "Report", "P"%char, "d"%char, "F"%char.
  split; [reflexivity|].
  split_and!; [by right; left | by left | by right; left].
Defined.



Lemma main_files_witness :
  path_exists (sample_batch_env report (Ok sample_listing) true) "missing" = false
  ∧ batch_files (main (sample_batch_env report (Ok sample_listing) true)
                      (Some "missing") None empty_batch).1 = ∅.
Proof.
  assert (path_exists (sample_batch_env report (Ok sample_listing) true) "missing"
          = false) as H by reflexivity.
  refine (conj H _).
  exact (proj1 (proj2 (proj2 (proj2 (main_files
                                       (sample_batch_env report (Ok sample_listing) true)
                                       (Some "missing") None empty_batch))
                             (or_introl H)))).
Defined.
